(** * Settlement and randomness-backed pricing: a shallow embedding

    The development follows the repository's layout:

    - [Sol]: the arithmetic of Solidity ^0.8 on [uint256] and [int256]
      (checked operations that panic, explicit conversions that wrap) and
      the result type of a call that may revert;
    - [Randomizer]: the contract [DataPurchaseRandomizer]
      (contracts/DataPurchaseRandomizer.sol), its storage, its functions
      and a transaction semantics over them;
    - [Controller]: the handler [verifyAttestation] of
      server/controllers/blockchain.js, with [Math.random] as an explicit
      stream of draws;
    - [FlareServices]: the endpoint configuration of
      web-app/flare-services.js and its assignment in
      [initializeBlockchain];
    - [FlareVrf]: the request ids and the purchase cache of
      web-app/flare-vrf.js;
    - [Ledger]: the purchase ledger (contracts/DataPurchase.sol), whose
      source is not part of the tree; modelled from the specification. *)

From Stdlib Require Import ZArith Lia List Ascii String QArith Qround.
From stdpp Require Import base option gmap strings.

Open Scope string_scope.
Open Scope Z_scope.

(** ** Solidity arithmetic and reverts *)

Module Sol.

Definition UINT256_MOD : Z := 2 ^ 256.
Definition INT256_MIN : Z := - 2 ^ 255.
Definition INT256_MAX : Z := 2 ^ 255 - 1.

(** What a reverting call carries back: [Error(string)] from a failed
    [require], [Panic(uint256)] from checked arithmetic, or the failure of
    a call made to another contract. *)
Inductive error : Type :=
| Error (reason : string)
| Panic (code : Z)
| CallFailed.

Inductive result (A : Type) : Type :=
| Ok (a : A)
| Revert (e : error).
Arguments Ok {A} a.
Arguments Revert {A} e.

Definition bind {A B : Type} (m : result A) (k : A -> result B) : result B :=
  match m with
  | Ok a => k a
  | Revert e => Revert e
  end.

Definition require (cond : bool) (reason : string) : result unit :=
  if cond then Ok tt else Revert (Error reason).

(** Panic codes: 0x11 arithmetic overflow or underflow, 0x12 division or
    modulo by zero. *)
Definition OVERFLOW : error := Panic 17.
Definition DIV_BY_ZERO : error := Panic 18.

Definition in_uint256 (z : Z) : bool := (0 <=? z) && (z <? UINT256_MOD).
Definition in_int256 (z : Z) : bool := (INT256_MIN <=? z) && (z <=? INT256_MAX).

(** [a + b], [a - b], [a * b] on uint256 *)
Definition add (a b : Z) : result Z :=
  if in_uint256 (a + b) then Ok (a + b) else Revert OVERFLOW.
Definition sub (a b : Z) : result Z :=
  if in_uint256 (a - b) then Ok (a - b) else Revert OVERFLOW.
Definition mul (a b : Z) : result Z :=
  if in_uint256 (a * b) then Ok (a * b) else Revert OVERFLOW.
(** [a / b], [a % b] on uint256 *)
Definition div (a b : Z) : result Z :=
  if b =? 0 then Revert DIV_BY_ZERO else Ok (a / b).
Definition mod_ (a b : Z) : result Z :=
  if b =? 0 then Revert DIV_BY_ZERO else Ok (a mod b).

(** [a - b] and [-a] on int256 *)
Definition isub (a b : Z) : result Z :=
  if in_int256 (a - b) then Ok (a - b) else Revert OVERFLOW.
Definition ineg (a : Z) : result Z :=
  if in_int256 (- a) then Ok (- a) else Revert OVERFLOW.

(** [int256(x)] for [x : uint256] and [uint256(x)] for [x : int256]:
    explicit conversions reinterpret the 256 bits and never revert. *)
Definition int256 (x : Z) : Z :=
  if x <? 2 ^ 255 then x else x - UINT256_MOD.
Definition uint256 (x : Z) : Z := x mod UINT256_MOD.

End Sol.

Notation "'let!' x ':=' m 'in' k" :=
  (Sol.bind m (fun x => k))
  (at level 10, x pattern, m at level 100, k at level 200).

(** ** contracts/DataPurchaseRandomizer.sol *)

Module Randomizer.
Import Sol.

Abbreviation address := Z (only parsing).
Abbreviation bytes32 := Z (only parsing).

(** Storage of the contract, with the native balance held at its address.
    A Solidity mapping is total: a key that was never written reads as the
    zero value of its type. *)
Record state : Type := mkState {
  owner : address;
  registry : address;
  userProvidedIdToRandomValue : gmap Z Z;
  userProvidedIdFulfilled : gmap Z bool;
  userProvidedIdToTimestamp : gmap Z Z;
  userProvidedIdIsSecure : gmap Z bool;
  balance : Z
}.

Definition read_uint (m : gmap Z Z) (k : bytes32) : Z := default 0 (m !! k).
Definition read_bool (m : gmap Z bool) (k : bytes32) : bool := default false (m !! k).

Inductive event : Type :=
| RandomnessStored (userProvidedId : bytes32) (randomValue : Z)
                   (isSecure : bool) (randomTimestamp : Z).

(** The other contracts a call reaches, all through [view] functions:
    [IContractRegistry.getContractAddressByName] at a given address and
    [IRandomNumberV2.getRandomNumber] at a given address. [None] is a call
    that reverts (or an address with no such contract). [accepts] tells
    whether a plain transfer of value to an address goes through. *)
Record chain : Type := mkChain {
  getContractAddressByName : address -> string -> option address;
  getRandomNumber : address -> option (Z * bool * Z);
  accepts : address -> bool
}.

(** constructor(address _registry) *)
Definition constructor (sender : address) (_registry : address) : state :=
  {| owner := sender;
     registry := _registry;
     userProvidedIdToRandomValue := ∅;
     userProvidedIdFulfilled := ∅;
     userProvidedIdToTimestamp := ∅;
     userProvidedIdIsSecure := ∅;
     balance := 0 |}.

(** modifier onlyOwner *)
Definition onlyOwner (s : state) (sender : address) : result unit :=
  require (sender =? owner s) "Only owner".

(** function srng() internal view *)
Definition srng (c : chain) (s : state) : result address :=
  match getContractAddressByName c (registry s) "RandomNumberV2" with
  | None => Revert CallFailed
  | Some rng =>
      let! _ := require (negb (rng =? 0)) "SRNG not resolved" in
      Ok rng
  end.

(** function storeRandomness(bytes32 _userProvidedId) external *)
Definition storeRandomness (c : chain) (s : state) (_userProvidedId : bytes32)
  : result ((Z * bool * Z) * state * list event) :=
  let! _ := require (negb (read_bool (userProvidedIdFulfilled s) _userProvidedId))
                    "Already fulfilled" in
  let! rng := srng c s in
  match getRandomNumber c rng with
  | None => Revert CallFailed
  | Some (randomValue, isSecure, randomTimestamp) =>
      let! _ := require (negb (randomValue =? 0)) "SRNG not ready" in
      let s' :=
        {| owner := owner s;
           registry := registry s;
           userProvidedIdToRandomValue :=
             <[_userProvidedId := randomValue]> (userProvidedIdToRandomValue s);
           userProvidedIdFulfilled :=
             <[_userProvidedId := true]> (userProvidedIdFulfilled s);
           userProvidedIdToTimestamp :=
             <[_userProvidedId := randomTimestamp]> (userProvidedIdToTimestamp s);
           userProvidedIdIsSecure :=
             <[_userProvidedId := isSecure]> (userProvidedIdIsSecure s);
           balance := balance s |} in
      Ok ((randomValue, isSecure, randomTimestamp), s',
          [RandomnessStored _userProvidedId randomValue isSecure randomTimestamp])
  end.

(** function getRandomValue(bytes32 _userProvidedId) external view *)
Definition getRandomValue (s : state) (_userProvidedId : bytes32) : result (Z * bool) :=
  Ok (read_uint (userProvidedIdToRandomValue s) _userProvidedId,
      read_bool (userProvidedIdFulfilled s) _userProvidedId).

(** function getRandomnessMeta(bytes32 _userProvidedId) external view *)
Definition getRandomnessMeta (s : state) (_userProvidedId : bytes32)
  : result (bool * Z * bool) :=
  if negb (read_bool (userProvidedIdFulfilled s) _userProvidedId) then
    Ok (false, 0, false)
  else
    Ok (read_bool (userProvidedIdIsSecure s) _userProvidedId,
        read_uint (userProvidedIdToTimestamp s) _userProvidedId,
        true).

(** function getNormalizedRandomValue(bytes32 _userProvidedId) external view *)
Definition getNormalizedRandomValue (s : state) (_userProvidedId : bytes32)
  : result (Z * bool) :=
  if negb (read_bool (userProvidedIdFulfilled s) _userProvidedId) then
    Ok (0, false)
  else
    let randomValue := read_uint (userProvidedIdToRandomValue s) _userProvidedId in
    let! normalizedValue := mod_ randomValue 1000 in
    Ok (normalizedValue, true).

(** The right-hand side of line 170:
    [int256(randomValue % (2 * _variationPercent + 1)) - int256(_variationPercent)] *)
Definition variationFactor (randomValue _variationPercent : Z) : result Z :=
  let! twice := mul 2 _variationPercent in
  let! modulus := add twice 1 in
  let! rem := mod_ randomValue modulus in
  isub (int256 rem) (int256 _variationPercent).

(** The two branches of lines 173-177 *)
Definition applyVariation (_basePrice vf : Z) : result Z :=
  if 0 <=? vf then
    let! prod := mul _basePrice (uint256 vf) in
    let! adj := div prod 100 in
    add _basePrice adj
  else
    let! mag := ineg vf in
    let! prod := mul _basePrice (uint256 mag) in
    let! adj := div prod 100 in
    sub _basePrice adj.

(** function getRandomPriceVariation(bytes32, uint256, uint256) external view *)
Definition getRandomPriceVariation (s : state) (_userProvidedId : bytes32)
           (_basePrice _variationPercent : Z) : result (Z * Z * bool) :=
  if negb (read_bool (userProvidedIdFulfilled s) _userProvidedId) then
    Ok (_basePrice, 0, false)
  else
    let randomValue := read_uint (userProvidedIdToRandomValue s) _userProvidedId in
    let! vf := variationFactor randomValue _variationPercent in
    let! finalPrice := applyVariation _basePrice vf in
    Ok (finalPrice, vf, true).

(** function updateRegistry(address _registry) external onlyOwner *)
Definition updateRegistry (s : state) (sender : address) (_registry : address)
  : result state :=
  let! _ := onlyOwner s sender in
  Ok {| owner := owner s;
        registry := _registry;
        userProvidedIdToRandomValue := userProvidedIdToRandomValue s;
        userProvidedIdFulfilled := userProvidedIdFulfilled s;
        userProvidedIdToTimestamp := userProvidedIdToTimestamp s;
        userProvidedIdIsSecure := userProvidedIdIsSecure s;
        balance := balance s |}.

(** function withdraw() external onlyOwner:
    [payable(owner).transfer(address(this).balance)] moves the whole
    balance out, or reverts when the owner's address refuses it. *)
Definition withdraw (c : chain) (s : state) (sender : address) : result state :=
  let! _ := onlyOwner s sender in
  if accepts c (owner s) then
    Ok {| owner := owner s;
          registry := registry s;
          userProvidedIdToRandomValue := userProvidedIdToRandomValue s;
          userProvidedIdFulfilled := userProvidedIdFulfilled s;
          userProvidedIdToTimestamp := userProvidedIdToTimestamp s;
          userProvidedIdIsSecure := userProvidedIdIsSecure s;
          balance := 0 |}
  else Revert CallFailed.

(** receive() external payable *)
Definition receive (s : state) (value : Z) : result state :=
  Ok {| owner := owner s;
        registry := registry s;
        userProvidedIdToRandomValue := userProvidedIdToRandomValue s;
        userProvidedIdFulfilled := userProvidedIdFulfilled s;
        userProvidedIdToTimestamp := userProvidedIdToTimestamp s;
        userProvidedIdIsSecure := userProvidedIdIsSecure s;
        balance := balance s + value |}.

(** *** Transactions

    Every externally callable entry point of the contract, the value it
    returns, and the effect of a transaction: the new storage when the call
    returns, the old storage when it reverts. The automatic getters of the
    [public] state variables are entry points too. *)

Inductive call : Type :=
| StoreRandomness (_userProvidedId : bytes32)
| GetRandomValue (_userProvidedId : bytes32)
| GetRandomnessMeta (_userProvidedId : bytes32)
| GetNormalizedRandomValue (_userProvidedId : bytes32)
| GetRandomPriceVariation (_userProvidedId : bytes32) (_basePrice _variationPercent : Z)
| UpdateRegistry (_registry : address)
| Withdraw
| Receive (value : Z)
| Owner
| Registry
| UserProvidedIdToRandomValue (key : bytes32)
| UserProvidedIdFulfilled (key : bytes32)
| UserProvidedIdToTimestamp (key : bytes32)
| UserProvidedIdIsSecure (key : bytes32).

Inductive output : Type :=
| OUnit
| OStored (randomValue : Z) (isSecure : bool) (randomTimestamp : Z)
| OValue (randomValue : Z) (fulfilled : bool)
| OMeta (isSecure : bool) (randomTimestamp : Z) (fulfilled : bool)
| ONormalized (normalizedValue : Z) (fulfilled : bool)
| OPrice (finalPrice : Z) (variationFactor : Z) (fulfilled : bool)
| OAddress (a : address)
| OUint (z : Z)
| OBool (b : bool).

(** A [view] function reads the storage and hands it back untouched. *)
Definition view {A : Type} (s : state) (wrap : A -> output) (r : result A)
  : result (output * state * list event) :=
  let! a := r in Ok (wrap a, s, []).

Definition effect (r : result state) : result (output * state * list event) :=
  let! s' := r in Ok (OUnit, s', []).

Definition exec (c : chain) (sender : address) (s : state) (f : call)
  : result (output * state * list event) :=
  match f with
  | StoreRandomness id =>
      let! (v, sec, ts, s', log) := storeRandomness c s id in
      Ok (OStored v sec ts, s', log)
  | GetRandomValue id =>
      view s (fun '(v, ful) => OValue v ful) (getRandomValue s id)
  | GetRandomnessMeta id =>
      view s (fun '(sec, ts, ful) => OMeta sec ts ful) (getRandomnessMeta s id)
  | GetNormalizedRandomValue id =>
      view s (fun '(n, ful) => ONormalized n ful) (getNormalizedRandomValue s id)
  | GetRandomPriceVariation id basePrice variationPercent =>
      view s (fun '(p, vf, ful) => OPrice p vf ful)
           (getRandomPriceVariation s id basePrice variationPercent)
  | UpdateRegistry r => effect (updateRegistry s sender r)
  | Withdraw => effect (withdraw c s sender)
  | Receive value => effect (receive s value)
  | Owner => view s OAddress (Ok (owner s))
  | Registry => view s OAddress (Ok (registry s))
  | UserProvidedIdToRandomValue k =>
      view s OUint (Ok (read_uint (userProvidedIdToRandomValue s) k))
  | UserProvidedIdFulfilled k =>
      view s OBool (Ok (read_bool (userProvidedIdFulfilled s) k))
  | UserProvidedIdToTimestamp k =>
      view s OUint (Ok (read_uint (userProvidedIdToTimestamp s) k))
  | UserProvidedIdIsSecure k =>
      view s OBool (Ok (read_bool (userProvidedIdIsSecure s) k))
  end.

Record tx : Type := mkTx {
  tx_chain : chain;
  tx_sender : address;
  tx_call : call
}.

(** Storage after a transaction. *)
Definition transact (s : state) (t : tx) : state :=
  match exec (tx_chain t) (tx_sender t) s (tx_call t) with
  | Ok (_, s', _) => s'
  | Revert _ => s
  end.

(** Storage after a sequence of transactions, oldest first. *)
Definition run (txs : list tx) (s : state) : state := fold_left transact txs s.

(** The record kept for an id: the stored triple and the flag. *)
Definition stored (s : state) (id : bytes32) : Z * bool * Z :=
  (read_uint (userProvidedIdToRandomValue s) id,
   read_bool (userProvidedIdIsSecure s) id,
   read_uint (userProvidedIdToTimestamp s) id).

Definition fulfilled (s : state) (id : bytes32) : bool :=
  read_bool (userProvidedIdFulfilled s) id.

(** The names the specification gives to the failures of [storeRandomness]. *)
Definition AlreadyFulfilled : error := Error "Already fulfilled".
Definition BeaconNotReady : error := Error "SRNG not ready".
Definition OnlyOwner : error := Error "Only owner".

(** Whether every checked operation of [getRandomPriceVariation] stays in
    the range of its type, for a stored [randomValue]. *)
Definition price_in_range (randomValue _basePrice _variationPercent : Z) : bool :=
  let rem := randomValue mod (2 * _variationPercent + 1) in
  let vf := rem - _variationPercent in
  (2 * _variationPercent + 1 <? UINT256_MOD)
  && (rem <? 2 ^ 255)
  && (_basePrice * Z.abs vf <? UINT256_MOD)
  && (if 0 <=? vf
      then _basePrice + Z.quot (_basePrice * vf) 100 <? UINT256_MOD
      else Z.quot (_basePrice * Z.abs vf) 100 <=? _basePrice).

(** *** A deployment to compute with

    The registry at address 2 resolves "RandomNumberV2" to address 7, where
    the beacon reports the value 36 (secure, round timestamp 1000); address 1
    deploys the contract and address 9 stores the randomness of id 5. *)
Definition sample_chain : chain :=
  {| getContractAddressByName :=
       fun a name => if (a =? 2) && String.eqb name "RandomNumberV2" then Some 7 else None;
     getRandomNumber := fun a => if a =? 7 then Some (36, true, 1000) else None;
     accepts := fun _ => true |}.

Definition deployed : state := constructor 1 2.

Definition after_store : state :=
  transact deployed (mkTx sample_chain 9 (StoreRandomness 5)).

(** The same chain one round later: the beacon now reports 77. *)
Definition later_chain : chain :=
  {| getContractAddressByName := getContractAddressByName sample_chain;
     getRandomNumber := fun a => if a =? 7 then Some (77, false, 1090) else None;
     accepts := fun _ => true |}.

Definition later_calls : list tx :=
  [ mkTx later_chain 9 (StoreRandomness 5);
    mkTx later_chain 1 (UpdateRegistry 3);
    mkTx later_chain 8 (Receive 40);
    mkTx later_chain 1 Withdraw;
    mkTx later_chain 9 (StoreRandomness 6) ].

(** A chain whose registry at address 2 resolves "RandomNumberV2" to the
    zero address. *)
Definition unresolved_chain : chain :=
  {| getContractAddressByName := fun _ _ => Some 0;
     getRandomNumber := fun _ => Some (36, true, 1000);
     accepts := fun _ => true |}.

(** A round in which the beacon reports 2^255 + 5, and the storage after
    address 9 stores it for id 5. *)
Definition high_chain : chain :=
  {| getContractAddressByName := getContractAddressByName sample_chain;
     getRandomNumber := fun a => if a =? 7 then Some (2 ^ 255 + 5, true, 1000) else None;
     accepts := fun _ => true |}.

Definition after_high_store : state :=
  transact deployed (mkTx high_chain 9 (StoreRandomness 5)).

End Randomizer.

(** ** server/controllers/blockchain.js *)

Module Controller.

(** A value as [express.json()] leaves it in [req.body]. A number carries the
    exact value of the double it was parsed to. *)
#[local] Unset Elimination Schemes.
Inductive jsval : Type :=
| JUndefined
| JNull
| JBool (b : bool)
| JNumber (q : Q)
| JString (s : string)
| JArray (items : list jsval)
| JObject (fields : list (string * jsval)).
#[local] Set Elimination Schemes.

(** ToBoolean *)
Definition truthy (v : jsval) : bool :=
  match v with
  | JUndefined | JNull => false
  | JBool b => b
  | JNumber q => negb (Qeq_bool q 0)
  | JString s => negb (String.eqb s "")
  | JArray _ | JObject _ => true
  end.

(** Own property of a parsed object; a key written twice keeps the later
    value. *)
Fixpoint field (fields : list (string * jsval)) (name : string) : jsval :=
  match fields with
  | [] => JUndefined
  | (k, v) :: rest =>
      match field rest name with
      | JUndefined => if String.eqb k name then v else JUndefined
      | later => later
      end
  end.

(** [const { requestId } = req.body]: [None] is the TypeError thrown on
    [undefined] and [null]. *)
Definition destructure_requestId (body : jsval) : option jsval :=
  match body with
  | JUndefined | JNull => None
  | JObject fields => Some (field fields "requestId")
  | _ => Some JUndefined
  end.

(** [Math.random]: the draws still to come, each a double in [0, 1) given by
    its exact value. *)
Definition rng : Type := nat -> Q.

Definition random (r : rng) : Q * rng := (r 0%nat, fun n => r (S n)).

(** [Math.floor(x * 16).toString(16)] for a draw [x] *)
Definition hex_digit (x : Q) : string :=
  match String.get (Z.to_nat (Qfloor (x * 16))) "0123456789abcdef" with
  | Some ch => String ch ""
  | None => ""
  end.

(** [Array(n).fill(0).map(() => ...).join('')] *)
Fixpoint hex_digits (n : nat) (r : rng) : string * rng :=
  match n with
  | O => ("", r)
  | S n' =>
      let (x, r1) := random r in
      let (rest, r2) := hex_digits n' r1 in
      (hex_digit x ++ rest, r2)
  end.

Inductive payload : Type :=
| ErrorBody (error : string)
| MockResult (verified : bool) (status message attestationResponse proof : string).

Record response : Type := mkResponse {
  statusCode : Z;
  json : payload
}.

(** exports.verifyAttestation *)
Definition verifyAttestation (body : jsval) (r : rng) : response * rng :=
  match destructure_requestId body with
  | None => (mkResponse 500 (ErrorBody "Failed to verify attestation"), r)
  | Some requestId =>
      if negb (truthy requestId) then
        (mkResponse 400 (ErrorBody "Missing requestId parameter"), r)
      else
        let (x1, r1) := random r in
        let verified := negb (Qle_bool x1 (1 # 2)) in
        let (x2, r2) := random r1 in
        let status := if negb (Qle_bool x2 (1 # 2)) then "verified" else "pending" in
        let (att, r3) := hex_digits 64 r2 in
        let (prf, r4) := hex_digits 128 r3 in
        (mkResponse 200
           (MockResult verified status
                       "Attestation verification result"
                       ("0x" ++ att) ("0x" ++ prf)),
         r4)
  end.

(** Does the handler find a usable [requestId] in the body? *)
Definition has_requestId (body : jsval) : bool :=
  match destructure_requestId body with
  | Some requestId => truthy requestId
  | None => false
  end.



(** Draws: 3/4 for the first 194 calls of [Math.random], 1/4 afterwards. *)
Definition draws_high_then_low : rng :=
  fun n => if (n <? 194)%nat then 3 # 4 else 1 # 4.

Definition sample_request : jsval :=
  JObject [("requestId", JString "0xaa")].

(** One of the properties the handlers read off [req.body] by
    destructuring ([dataType], [startDate], ...): [None] is the TypeError
    thrown on [undefined] and [null]. *)
Definition destructure (body : jsval) (name : string) : option jsval :=
  match body with
  | JUndefined | JNull => None
  | JObject fields => Some (field fields name)
  | _ => Some JUndefined
  end.

(** Is the property there and truthy? *)
Definition present (body : jsval) (name : string) : bool :=
  match destructure body name with
  | Some v => truthy v
  | None => false
  end.

Inductive purchase_payload : Type :=
| PurchaseError (error : string)
| PurchaseResult (success : bool)
                 (requestId transactionHash attestationTransactionHash message : string).

Record purchase_response : Type := mkPurchaseResponse {
  purchase_statusCode : Z;
  purchase_json : purchase_payload
}.

(** exports.purchaseData; [coordinates] and [price] are read off the body
    and never used. *)
Definition purchaseData (body : jsval) (r : rng) : purchase_response * rng :=
  match destructure body "dataType", destructure body "startDate",
        destructure body "endDate" with
  | Some dataType, Some startDate, Some endDate =>
      if negb (truthy dataType) then
        (mkPurchaseResponse 400 (PurchaseError "Missing required parameter: dataType"), r)
      else if negb (truthy startDate) || negb (truthy endDate) then
        (mkPurchaseResponse 400
           (PurchaseError "Missing required parameters: startDate or endDate"), r)
      else
        let (requestId, r1) := hex_digits 64 r in
        let (transactionHash, r2) := hex_digits 64 r1 in
        let (attestationTransactionHash, r3) := hex_digits 64 r2 in
        (mkPurchaseResponse 200
           (PurchaseResult true ("0x" ++ requestId) ("0x" ++ transactionHash)
                           ("0x" ++ attestationTransactionHash)
                           "Data purchase request submitted successfully"),
         r3)
  | _, _, _ => (mkPurchaseResponse 500 (PurchaseError "Failed to purchase data"), r)
  end.

(** Draws as [Math.random] makes them: at least 0 and below 1. *)
Definition unit_draws (r : rng) : Prop :=
  forall k, (0 <= r k)%Q /\ (r k < 1)%Q.

(** A lower-case hexadecimal digit, and a string made of them. *)
Definition is_hex_char (ch : Ascii.ascii) : bool :=
  match String.index 0 (String ch "") "0123456789abcdef" with
  | Some _ => true
  | None => false
  end.

Fixpoint all_hex (s : string) : bool :=
  match s with
  | EmptyString => true
  | String ch rest => is_hex_char ch && all_hex rest
  end.

(** ["0x"] followed by [n] hexadecimal digits. *)
Definition is_hex_of_length (n : nat) (s : string) : Prop :=
  exists digits, s = "0x" ++ digits /\ String.length digits = n /\ all_hex digits = true.

(** Draws for a chosen pair of answers: the first decides [verified], all
    the others are the same and decide [status]. *)
Definition draws_for (verified status : bool) : rng :=
  fun n =>
    match n with
    | O => if verified then 3 # 4 else 1 # 4
    | S _ => if status then 3 # 4 else 1 # 4
    end.

Definition sample_purchase : jsval :=
  JObject [("dataType", JString "S2MSI2A"); ("startDate", JString "2024-01-01");
           ("endDate", JString "2024-01-31"); ("price", JNumber (5 # 1))].

End Controller.

(** ** web-app/flare-services.js *)

Module FlareServices.

(** [let contractConfig]: endpoints and contract addresses, as strings. *)
Record contractConfig : Type := mkContractConfig {
  rpcUrl : string;
  dataPurchaseAddress : string;
  fdcHubAddress : string;
  fdcVerificationAddress : string;
  daLayerApi : string
}.

(** The fields read from the answer of GET /api/blockchain/config: a string,
    or [None] for a field the backend left out. *)
Record backendConfig : Type := mkBackendConfig {
  config_rpcUrl : option string;
  config_dataPurchaseContractAddress : option string;
  config_fdcHubAddress : option string;
  config_fdcVerificationAddress : option string;
  config_daLayerApi : option string
}.

(** The module's initial value of [contractConfig], lines 17-23. *)
Definition initialContractConfig : contractConfig :=
  {| rpcUrl := "https://coston2-api.flare.network/ext/C/rpc";
     dataPurchaseAddress := "";
     fdcHubAddress := "";
     fdcVerificationAddress := "";
     daLayerApi := "https://api.da.coston2.flare.network" |}.

Definition FALLBACK_DATA_PURCHASE_ADDRESS : string :=
  "0x2330d0cc23fd6764b7c67023c8fb85ae7287bfc9".

(** [a || b] where [a] is a string or undefined: the empty string is falsy. *)
Definition or_else (a : option string) (b : string) : string :=
  match a with
  | Some v => if String.eqb v "" then b else v
  | None => b
  end.

(** Lines 110-127 of [initializeBlockchain]: the assignment
    [contractConfig = { ... }] from the backend's answer and the fallback
    for a missing payment contract address. *)
Definition updateContractConfig (config : backendConfig) (current : contractConfig)
  : contractConfig :=
  let assigned :=
    {| rpcUrl := or_else (config_rpcUrl config) (rpcUrl current);
       dataPurchaseAddress :=
         or_else (config_dataPurchaseContractAddress config) (dataPurchaseAddress current);
       fdcHubAddress := or_else (config_fdcHubAddress config) (fdcHubAddress current);
       fdcVerificationAddress :=
         or_else (config_fdcVerificationAddress config) (fdcVerificationAddress current);
       daLayerApi := or_else (config_daLayerApi config) (daLayerApi current) |} in
  if String.eqb (dataPurchaseAddress assigned) "" then
    {| rpcUrl := rpcUrl assigned;
       dataPurchaseAddress := FALLBACK_DATA_PURCHASE_ADDRESS;
       fdcHubAddress := fdcHubAddress assigned;
       fdcVerificationAddress := fdcVerificationAddress assigned;
       daLayerApi := daLayerApi assigned |}
  else assigned.

(** A backend answer that names another RPC endpoint and another hub. *)
Definition other_backend : backendConfig :=
  {| config_rpcUrl := Some "https://coston-api.flare.network/ext/C/rpc";
     config_dataPurchaseContractAddress := None;
     config_fdcHubAddress := Some "0x00000000000000000000000000000000000000f1";
     config_fdcVerificationAddress := None;
     config_daLayerApi := Some "" |}.

End FlareServices.

(** ** web-app/flare-vrf.js *)

Module FlareVrf.
Import Controller.

(** ToInt32: the signed 32-bit integer congruent to [z] modulo 2^32. *)
Definition toInt32 (z : Z) : Z := (z + 2 ^ 31) mod 2 ^ 32 - 2 ^ 31.

(** [x << 5] and [x & y] on Numbers: both operands go through ToInt32 and
    the result is a signed 32-bit integer. *)
Definition shl5 (x : Z) : Z := toInt32 (Z.shiftl (toInt32 x) 5).
Definition bitand (x y : Z) : Z := toInt32 (Z.land (toInt32 x) (toInt32 y)).

(** The body of the loop of [generateRequestId] for one code unit:
    [hash = ((hash << 5) - hash) + char; hash = hash & hash]. The
    subtraction and the addition are exact: every value stays far below
    2^53 in magnitude. *)
Definition hash_step (hash char : Z) : Z :=
  let hash := (shl5 hash - hash) + char in
  bitand hash hash.

(** The loop over [paramsString], given as its UTF-16 code units. *)
Definition hashCode (paramsString : list Z) : Z := fold_left hash_step paramsString 0.

Definition hex_char (d : Z) : string :=
  match String.get (Z.to_nat d) "0123456789abcdef" with
  | Some ch => String ch ""
  | None => ""
  end.

(** [n.toString(16)] for an integer [n >= 0]: most significant digit first,
    no leading zero. *)
Fixpoint toString16_fuel (fuel : nat) (n : Z) : string :=
  match fuel with
  | O => ""
  | S fuel' =>
      if n <? 16 then hex_char n
      else toString16_fuel fuel' (n / 16) ++ hex_char (n mod 16)
  end.

Definition toString16 (n : Z) : string :=
  toString16_fuel (S (Z.to_nat (Z.log2 n))) n.

Fixpoint replicate (n : nat) (ch : Ascii.ascii) : string :=
  match n with
  | O => ""
  | S n' => String ch (replicate n' ch)
  end.

(** [s.padStart(targetLength, ch)] for a one-character filler. *)
Definition padStart (s : string) (targetLength : nat) (ch : Ascii.ascii) : string :=
  replicate (targetLength - String.length s) ch ++ s.

(** function generateRequestId(params), from [paramsString =
    JSON.stringify(params)] on. *)
Definition generateRequestId (paramsString : list Z) : string :=
  "0x" ++ padStart (toString16 (Z.abs (hashCode paramsString))) 64 "0"%char.

(** The number a string of hexadecimal digits stands for. *)
Definition hex_digit_value (ch : Ascii.ascii) : Z :=
  match String.index 0 (String ch "") "0123456789abcdef" with
  | Some i => Z.of_nat i
  | None => 0
  end.

Fixpoint hex_value_from (acc : Z) (s : string) : Z :=
  match s with
  | EmptyString => acc
  | String ch rest => hex_value_from (16 * acc + hex_digit_value ch) rest
  end.

(** The number written as ["0x"] and hexadecimal digits. *)
Definition hex_value (s : string) : Z :=
  match s with
  | String "0" (String "x" digits) => hex_value_from 0 digits
  | _ => hex_value_from 0 s
  end.

(** The polynomial the loop computes before wrapping: the code units as the
    digits of a number in base 31. *)
Definition base31 (paramsString : list Z) : Z :=
  fold_left (fun h char => 31 * h + char) paramsString 0.

(** An entry of [fdcCache], as [purchaseData] and [useFallbackData] build
    it: [txHash] is [None] when the receipt has no [hash]; [isFallback] is
    false where the object has no such property. *)
Record fdcResult : Type := mkFdcResult {
  res_requestId : string;
  res_txHash : option string;
  res_status : string;
  res_isFallback : bool
}.

(** The module state: the cache and the connection flags. The provider,
    the signer and the contract object are set together with
    [isInitialized] and are seen here only through what calls on them
    give. *)
Record service : Type := mkService {
  fdcCache : gmap string fdcResult;
  isInitialized : bool;
  isConnecting : bool;
  connectionError : jsval
}.

Definition initial_service : service :=
  {| fdcCache := ∅; isInitialized := false; isConnecting := false;
     connectionError := JNull |}.

(** What the wallet and the chain do during one call. [connect]: [None]
    when the [try] block of [initialize] runs to its end, [Some m] when it
    throws an error whose [message] is [m]. [purchase]: [Some h] when
    [contract.purchase] and [tx.wait()] go through and the receipt's [hash]
    is [h], [None] when one of them throws. *)
Record world : Type := mkWorld {
  connect : option jsval;
  purchase : option (option string)
}.

(** async function initialize() *)
Definition initialize (st : service) (w : world) : bool * service :=
  if isInitialized st then (true, st)
  else if isConnecting st then (false, st)
  else
    match connect w with
    | None =>
        (true, {| fdcCache := fdcCache st; isInitialized := true;
                  isConnecting := false; connectionError := JNull |})
    | Some message =>
        (false, {| fdcCache := fdcCache st; isInitialized := isInitialized st;
                   isConnecting := false; connectionError := message |})
    end.

(** function useFallbackData(params) *)
Definition useFallbackData (paramsString : list Z) (st : service) (r : rng)
  : fdcResult * service * rng :=
  let requestId := generateRequestId paramsString in
  let (digits, r') := hex_digits 64 r in
  let result := mkFdcResult requestId (Some ("0x" ++ digits)) "completed" true in
  (result,
   {| fdcCache := <[requestId := result]> (fdcCache st);
      isInitialized := isInitialized st;
      isConnecting := isConnecting st;
      connectionError := connectionError st |},
   r').

(** async function purchaseData(params), as one call run from its start to
    its end with no other call of the module taking a turn at its awaits;
    [start], [resume] and [step] below give the same function one await at
    a time, for calls that overlap. *)
Definition purchaseData (paramsString : list Z) (st : service) (w : world) (r : rng)
  : fdcResult * service * rng :=
  let requestId := generateRequestId paramsString in
  match fdcCache st !! requestId with
  | Some cached => (cached, st, r)
  | None =>
      let (success, st1) :=
        if negb (isInitialized st) then initialize st w else (true, st) in
      if negb success then useFallbackData paramsString st1 r
      else
        match purchase w with
        | Some txHash =>
            let result := mkFdcResult requestId txHash "pending" false in
            (result,
             {| fdcCache := <[requestId := result]> (fdcCache st1);
                isInitialized := isInitialized st1;
                isConnecting := isConnecting st1;
                connectionError := connectionError st1 |},
             r)
        | None => useFallbackData paramsString st1 r
        end
  end.

(** function clearCache() *)
Definition clearCache (st : service) : service :=
  {| fdcCache := ∅;
     isInitialized := isInitialized st;
     isConnecting := isConnecting st;
     connectionError := connectionError st |}.

(** *** Calls that overlap

    [initialize] and [purchaseData] are async: a call runs up to an
    [await], lets other calls take their turn, and goes on when what it
    waits for settles. The module variables are read and written only
    where a call starts or goes on, so a call in flight is one of: inside
    the [try] block of [initialize], past [isConnecting = true], waiting on
    the wallet; back from [initialize] with its answer, [purchaseData] not
    yet resumed; waiting on [contract.purchase] and [tx.wait()]; returned. *)
Inductive task : Type :=
| Initialize
| PurchaseData (paramsString : list Z).

Inductive phase : Type :=
| Connecting
| Initialized (success : bool)
| Purchasing
| Returned (result : fdcResult).

(** [initialize] up to its first await. *)
Definition begin_initialize (st : service) : phase * service :=
  if isInitialized st then (Initialized true, st)
  else if isConnecting st then (Initialized false, st)
  else
    (Connecting,
     {| fdcCache := fdcCache st; isInitialized := isInitialized st;
        isConnecting := true; connectionError := JNull |}).

(** [initialize] from the end of its [try] block, or from its [catch]. *)
Definition end_initialize (st : service) (w : world) : phase * service :=
  match connect w with
  | None =>
      (Initialized true,
       {| fdcCache := fdcCache st; isInitialized := true;
          isConnecting := false; connectionError := connectionError st |})
  | Some message =>
      (Initialized false,
       {| fdcCache := fdcCache st; isInitialized := isInitialized st;
          isConnecting := false; connectionError := message |})
  end.

(** A call up to its first await. *)
Definition start (t : task) (st : service) : phase * service :=
  match t with
  | Initialize => begin_initialize st
  | PurchaseData paramsString =>
      match fdcCache st !! generateRequestId paramsString with
      | Some cached => (Returned cached, st)
      | None =>
          if negb (isInitialized st) then begin_initialize st else (Purchasing, st)
      end
  end.

(** A call in flight going on to its next await or to its return; a call
    that has returned stays where it is. *)
Definition resume (t : task) (ph : phase) (st : service) (w : world) (r : rng)
  : phase * service * rng :=
  match ph, t with
  | Connecting, _ => let (ph', st') := end_initialize st w in (ph', st', r)
  | Initialized true, PurchaseData _ => (Purchasing, st, r)
  | Initialized false, PurchaseData paramsString =>
      let '(result, st', r') := useFallbackData paramsString st r in
      (Returned result, st', r')
  | Purchasing, PurchaseData paramsString =>
      match purchase w with
      | Some txHash =>
          let requestId := generateRequestId paramsString in
          let result := mkFdcResult requestId txHash "pending" false in
          (Returned result,
           {| fdcCache := <[requestId := result]> (fdcCache st);
              isInitialized := isInitialized st;
              isConnecting := isConnecting st;
              connectionError := connectionError st |},
           r)
      | None =>
          let '(result, st', r') := useFallbackData paramsString st r in
          (Returned result, st', r')
      end
  | _, _ => (ph, st, r)
  end.


(** The page: the module variables, the draws [Math.random] still has to
    give, and the calls made so far, each with the point it has reached. *)
Record system : Type := mkSystem {
  shared : service;
  stream : rng;
  calls : list (task * phase)
}.

(** What can happen next: a new call, the call at some position going on
    (with what the wallet and the chain answer it), or [clearCache()]. *)
Inductive action : Type :=
| Call (t : task)
| Resume (i : nat) (w : world)
| ClearCache.

Definition step (sys : system) (a : action) : system :=
  match a with
  | Call t =>
      let (ph, st) := start t (shared sys) in
      {| shared := st; stream := stream sys; calls := calls sys ++ [(t, ph)] |}
  | Resume i w =>
      match calls sys !! i with
      | Some (t, ph) =>
          let '(ph', st', r') := resume t ph (shared sys) w (stream sys) in
          {| shared := st'; stream := r'; calls := <[i := (t, ph')]> (calls sys) |}
      | None => sys
      end
  | ClearCache =>
      {| shared := clearCache (shared sys); stream := stream sys; calls := calls sys |}
  end.

Definition run_system (actions : list action) (sys : system) : system :=
  fold_left step actions sys.

Definition is_clear (a : action) : bool :=
  match a with ClearCache => true | _ => false end.

(** Two calls for the same parameters that overlap: the first starts and
    waits on the wallet; the second starts, finds a connection under way,
    and falls back; then the first connects, purchases and returns. *)
Definition overlapping (paramsString : list Z) (w : world) : list action :=
  [ Call (PurchaseData paramsString);
    Call (PurchaseData paramsString);
    Resume 1 w;
    Resume 0 w;
    Resume 0 w;
    Resume 0 w ].

(** Samples: the code units of ["Aa"] and ["BB"] between quotes, as
    [JSON.stringify] writes a string; a wallet that refuses to connect and
    one that connects and mines the purchase. *)
Definition quoted_Aa : list Z := [34; 65; 97; 34].
Definition quoted_BB : list Z := [34; 66; 66; 34].

Definition no_wallet : world :=
  {| connect := Some (JString "MetaMask is not installed"); purchase := None |}.

Definition good_wallet : world :=
  {| connect := None; purchase := Some (Some "0xfeed") |}.

End FlareVrf.

(** ** contracts/DataPurchase.sol *)

Module Ledger.

Abbreviation address := Z (only parsing).
Abbreviation bytes32 := Z (only parsing).

(** Modelled from the spec: the Ledger contract (contracts/DataPurchase.sol)
    is missing from the tree; only its ABI, a test script and its callers are
    there. The lifecycle of a request, section 3 of the specification. *)
Inductive lifecycle : Type :=
| Created
| AttestationRequested
| AttestationVerified
| Delivered
| Failed.

(** Modelled from the spec: the PurchaseRequest record of section 3;
    [dataHash] is set only on the transition to [Delivered]. *)
Record PurchaseRequest : Type := mkRequest {
  buyer : address;
  amountPaid : Z;
  state : lifecycle;
  dataHash : option bytes32
}.

(** Modelled from the spec: the failures of section 4.1. *)
Inductive failure : Type :=
| DuplicateRequest
| InsufficientPayment
| UnknownRequest
| AlreadyDelivered
| InvalidProof.

(** Modelled from the spec: the "request opened" and "data delivered"
    events of section 4.1, under the names the ABI in web-app/flare-vrf.js
    gives them. *)
Inductive event : Type :=
| DataRequested (buyer : address) (requestId : bytes32)
| DataDelivered (requestId : bytes32) (dataHash : bytes32).

(** Modelled from the spec: what section 4.1 leaves to the deployment: the
    local verification of a proof against an attestation response, the
    computation of the data hash, the required minimum payment and the
    configured payee. *)
Record config : Type := mkConfig {
  verifyProof : bytes32 -> list Z -> bool;
  computeDataHash : bytes32 -> bytes32 -> bytes32;
  minimumPayment : Z;
  payee : address
}.

(** Modelled from the spec: the store of requests, the funds in escrow and
    the funds released to the payee so far. *)
Record ledger : Type := mkLedger {
  requests : gmap Z PurchaseRequest;
  escrow : Z;
  released : Z
}.

Definition is_delivered (st : lifecycle) : bool :=
  match st with Delivered => true | _ => false end.

(** Modelled from the spec: [purchase(requestId, payment)], section 4.1. *)
Definition purchase (cfg : config) (l : ledger) (sender : address)
           (requestId : bytes32) (payment : Z)
  : failure + ledger * list event :=
  match requests l !! requestId with
  | Some _ => inl DuplicateRequest
  | None =>
      if payment <? minimumPayment cfg then inl InsufficientPayment
      else
        inr ({| requests :=
                  <[requestId := mkRequest sender payment Created None]> (requests l);
                escrow := escrow l + payment;
                released := released l |},
             [DataRequested sender requestId])
  end.

(** Modelled from the spec: [deliverData(requestId, attestationResponse,
    proof)], section 4.1. *)
Definition deliverData (cfg : config) (l : ledger)
           (requestId attestationResponse : bytes32) (proof : list Z)
  : failure + ledger * list event :=
  match requests l !! requestId with
  | None => inl UnknownRequest
  | Some req =>
      if is_delivered (state req) then inl AlreadyDelivered
      else if negb (verifyProof cfg attestationResponse proof) then inl InvalidProof
      else
        let h := computeDataHash cfg requestId attestationResponse in
        inr ({| requests :=
                  <[requestId := mkRequest (buyer req) (amountPaid req) Delivered (Some h)]>
                    (requests l);
                escrow := escrow l - amountPaid req;
                released := released l + amountPaid req |},
             [DataDelivered requestId h])
  end.

(** Modelled from the spec: the two operations that write to the ledger
    (section 3: a request is mutated only by [purchase] and [deliverData]),
    as calls. *)
Inductive call : Type :=
| Purchase (sender : address) (requestId : bytes32) (payment : Z)
| DeliverData (requestId attestationResponse : bytes32) (proof : list Z).

Definition exec (cfg : config) (l : ledger) (c : call) : failure + ledger * list event :=
  match c with
  | Purchase sender requestId payment => purchase cfg l sender requestId payment
  | DeliverData requestId resp proof => deliverData cfg l requestId resp proof
  end.

(** Modelled from the spec: both operations are atomic (section 4.1), a
    failed call persists nothing. *)
Definition transact (cfg : config) (l : ledger) (c : call) : ledger :=
  match exec cfg l c with
  | inr (l', _) => l'
  | inl _ => l
  end.

Definition run (cfg : config) (calls : list call) (l : ledger) : ledger :=
  fold_left (transact cfg) calls l.

(** Is this call a [deliverData] for [requestId] that succeeds on [l]? *)
Definition delivers (cfg : config) (requestId : bytes32) (l : ledger) (c : call) : bool :=
  match c with
  | DeliverData id resp proof =>
      (id =? requestId) &&
      match deliverData cfg l id resp proof with inr _ => true | inl _ => false end
  | Purchase _ _ _ => false
  end.

(** How many [deliverData] calls for [requestId] succeed along a run. *)
Fixpoint deliveries (cfg : config) (requestId : bytes32) (calls : list call) (l : ledger)
  : nat :=
  match calls with
  | [] => O
  | c :: rest =>
      ((if delivers cfg requestId l c then 1 else 0)
       + deliveries cfg requestId rest (transact cfg l c))%nat
  end.

(** The request [requestId] is on the ledger as [req], already delivered. *)
Definition delivered_as (l : ledger) (requestId : Z) (req : PurchaseRequest) : Prop :=
  requests l !! requestId = Some req /\ state req = Delivered.

(** A deployment to compute with: any non-empty proof verifies, the data
    hash is the attestation response, the minimum payment is 10; buyer 1
    opens request 170 and the oracle delivers it. *)
Definition sample_config : config :=
  {| verifyProof := fun _ proof => match proof with [] => false | _ => true end;
     computeDataHash := fun _ attestationResponse => attestationResponse;
     minimumPayment := 10;
     payee := 4 |}.

Definition empty_ledger : ledger := {| requests := ∅; escrow := 0; released := 0 |}.

Definition delivered_ledger : ledger :=
  run sample_config [Purchase 1 170 10; DeliverData 170 1 [255]] empty_ledger.

Definition more_calls : list call :=
  [DeliverData 170 2 [254]; Purchase 3 170 50; Purchase 3 171 50; DeliverData 171 7 [1]].

End Ledger.

(** * Properties *)

(** ** Checked arithmetic *)

Module SolFacts.
Import Sol.

Lemma pow256 : UINT256_MOD = 2 * 2 ^ 255.
Proof. reflexivity. Qed.

Lemma pow255_pos : 0 < 2 ^ 255.
Proof. reflexivity. Qed.

Lemma in_uint256_spec (z : Z) : in_uint256 z = true <-> 0 <= z < UINT256_MOD.
Proof.
  unfold in_uint256. rewrite andb_true_iff, Z.leb_le, Z.ltb_lt. tauto.
Qed.

Lemma in_int256_spec (z : Z) : in_int256 z = true <-> - 2 ^ 255 <= z < 2 ^ 255.
Proof.
  unfold in_int256, INT256_MIN, INT256_MAX.
  rewrite andb_true_iff, !Z.leb_le. lia.
Qed.

Lemma checked_ok (f : Z -> bool) (z : Z) (P : Prop) :
  (f z = true <-> P) -> P -> (if f z then Ok z else Revert OVERFLOW) = Ok z.
Proof. intros Hiff HP. apply Hiff in HP. now rewrite HP. Qed.

Lemma checked_overflow (f : Z -> bool) (z : Z) (P : Prop) :
  (f z = true <-> P) -> ~ P -> (if f z then Ok z else Revert OVERFLOW) = Revert OVERFLOW.
Proof. intros Hiff HP. destruct (f z); [tauto | reflexivity]. Qed.

Lemma add_ok (a b : Z) : 0 <= a + b < UINT256_MOD -> add a b = Ok (a + b).
Proof. apply checked_ok, in_uint256_spec. Qed.
Lemma add_overflow (a b : Z) : ~ 0 <= a + b < UINT256_MOD -> add a b = Revert OVERFLOW.
Proof. apply checked_overflow, in_uint256_spec. Qed.
Lemma sub_ok (a b : Z) : 0 <= a - b < UINT256_MOD -> sub a b = Ok (a - b).
Proof. apply checked_ok, in_uint256_spec. Qed.
Lemma sub_overflow (a b : Z) : ~ 0 <= a - b < UINT256_MOD -> sub a b = Revert OVERFLOW.
Proof. apply checked_overflow, in_uint256_spec. Qed.
Lemma mul_ok (a b : Z) : 0 <= a * b < UINT256_MOD -> mul a b = Ok (a * b).
Proof. apply checked_ok, in_uint256_spec. Qed.
Lemma mul_overflow (a b : Z) : ~ 0 <= a * b < UINT256_MOD -> mul a b = Revert OVERFLOW.
Proof. apply checked_overflow, in_uint256_spec. Qed.
Lemma isub_ok (a b : Z) : - 2 ^ 255 <= a - b < 2 ^ 255 -> isub a b = Ok (a - b).
Proof. apply checked_ok, in_int256_spec. Qed.
Lemma isub_overflow (a b : Z) : ~ - 2 ^ 255 <= a - b < 2 ^ 255 -> isub a b = Revert OVERFLOW.
Proof. apply checked_overflow, in_int256_spec. Qed.
Lemma ineg_ok (a : Z) : - 2 ^ 255 <= - a < 2 ^ 255 -> ineg a = Ok (- a).
Proof. apply checked_ok, in_int256_spec. Qed.

Lemma mod_ok (a b : Z) : b <> 0 -> mod_ a b = Ok (a mod b).
Proof. intros Hb. unfold mod_. apply Z.eqb_neq in Hb. now rewrite Hb. Qed.

Lemma int256_small (x : Z) : x < 2 ^ 255 -> int256 x = x.
Proof. intros Hx. unfold int256. apply Z.ltb_lt in Hx. now rewrite Hx. Qed.
Lemma int256_large (x : Z) : 2 ^ 255 <= x -> int256 x = x - UINT256_MOD.
Proof. intros Hx. unfold int256. apply Z.ltb_ge in Hx. now rewrite Hx. Qed.
Lemma uint256_small (x : Z) : 0 <= x < UINT256_MOD -> uint256 x = x.
Proof. intros Hx. unfold uint256. now apply Z.mod_small. Qed.


End SolFacts.

(** ** The randomness store and the pricing engine *)

Module RandomizerFacts.
Import Sol SolFacts Randomizer.

Lemma read_uint_insert (m : gmap Z Z) (k v : Z) : read_uint (<[k := v]> m) k = v.
Proof. unfold read_uint. now rewrite lookup_insert_eq. Qed.

Lemma read_uint_insert_ne (m : gmap Z Z) (k k' v : Z) :
  k <> k' -> read_uint (<[k := v]> m) k' = read_uint m k'.
Proof. intros Hne. unfold read_uint. now rewrite lookup_insert_ne. Qed.

Lemma read_bool_insert (m : gmap Z bool) (k : Z) (b : bool) :
  read_bool (<[k := b]> m) k = b.
Proof. unfold read_bool. now rewrite lookup_insert_eq. Qed.

Lemma read_bool_insert_ne (m : gmap Z bool) (k k' : Z) (b : bool) :
  k <> k' -> read_bool (<[k := b]> m) k' = read_bool m k'.
Proof. intros Hne. unfold read_bool. now rewrite lookup_insert_ne. Qed.

(** What a successful [storeRandomness] must have gone through. *)
Lemma storeRandomness_ok_inv (c : chain) (s s' : state) (id : Z)
      (ret : Z * bool * Z) (log : list event) :
  storeRandomness c s id = Ok (ret, s', log) ->
  fulfilled s id = false /\
  exists rng v sec ts,
    srng c s = Ok rng /\ getRandomNumber c rng = Some (v, sec, ts) /\ v <> 0 /\
    ret = (v, sec, ts) /\
    log = [RandomnessStored id v sec ts] /\
    s' = {| owner := owner s;
            registry := registry s;
            userProvidedIdToRandomValue := <[id := v]> (userProvidedIdToRandomValue s);
            userProvidedIdFulfilled := <[id := true]> (userProvidedIdFulfilled s);
            userProvidedIdToTimestamp := <[id := ts]> (userProvidedIdToTimestamp s);
            userProvidedIdIsSecure := <[id := sec]> (userProvidedIdIsSecure s);
            balance := balance s |}.
Proof.
  unfold storeRandomness, fulfilled.
  destruct (read_bool (userProvidedIdFulfilled s) id) eqn:Hful; simpl; [discriminate|].
  destruct (srng c s) as [rng|e] eqn:Hrng; simpl; [|discriminate].
  destruct (getRandomNumber c rng) as [[[v sec] ts]|] eqn:Hget; [|discriminate].
  destruct (v =? 0) eqn:Hv; simpl; [discriminate|].
  intros H. injection H as <- <- <-.
  split; [reflexivity|].
  exists rng, v, sec, ts. repeat split; try assumption; try reflexivity.
  now apply Z.eqb_neq.
Qed.

(** The guard of [onlyOwner] passes for the owner and for nobody else. *)
Lemma onlyOwner_ok (s : state) (sender : Z) :
  onlyOwner s sender = Ok tt -> sender = owner s.
Proof.
  unfold onlyOwner, require. destruct (sender =? owner s) eqn:E; [|discriminate].
  intros _. now apply Z.eqb_eq.
Qed.

Lemma onlyOwner_other (s : state) (sender : Z) :
  sender <> owner s -> onlyOwner s sender = Revert OnlyOwner.
Proof.
  intros Hne. unfold onlyOwner, require.
  apply Z.eqb_neq in Hne. now rewrite Hne.
Qed.

Ltac view_returns H :=
  unfold view in H;
  match type of H with
  | context [bind ?r _] => destruct r eqn:?; simpl in H; [|discriminate]
  end;
  injection H as _ <- <-.

Ltac effect_returns H Hown :=
  match type of H with
  | context [onlyOwner ?s ?sender] =>
      destruct (onlyOwner s sender) as [[]|] eqn:Hown; simpl in H; [|discriminate];
      apply onlyOwner_ok in Hown
  end.

(** The ways a call can return, and what each leaves in storage. *)
Lemma exec_ok_cases (c : chain) (sender : Z) (s s' : state) (f : call)
      (o : output) (log : list event) :
  exec c sender s f = Ok (o, s', log) ->
  (exists id ret, f = StoreRandomness id /\ storeRandomness c s id = Ok (ret, s', log))
  \/ (s' = s /\ log = [] /\ forall id, f <> StoreRandomness id)
  \/ (sender = owner s /\ log = [] /\
      userProvidedIdToRandomValue s' = userProvidedIdToRandomValue s /\
      userProvidedIdFulfilled s' = userProvidedIdFulfilled s /\
      userProvidedIdToTimestamp s' = userProvidedIdToTimestamp s /\
      userProvidedIdIsSecure s' = userProvidedIdIsSecure s /\
      owner s' = owner s /\
      ((exists r, f = UpdateRegistry r /\ registry s' = r /\ balance s' = balance s)
       \/ (f = Withdraw /\ registry s' = registry s /\ balance s' = 0)))
  \/ (exists value, f = Receive value /\
      s' = {| owner := owner s;
              registry := registry s;
              userProvidedIdToRandomValue := userProvidedIdToRandomValue s;
              userProvidedIdFulfilled := userProvidedIdFulfilled s;
              userProvidedIdToTimestamp := userProvidedIdToTimestamp s;
              userProvidedIdIsSecure := userProvidedIdIsSecure s;
              balance := balance s + value |}).
Proof.
  intros Hexec. destruct f; cbn [exec] in Hexec;
    try (view_returns Hexec; right; left; repeat split; congruence).
  - left. destruct (storeRandomness c s _userProvidedId) as [[[[[v sec] ts] s1] log1]|e]
      eqn:Hst; simpl in Hexec; [|discriminate].
    injection Hexec as _ <- <-. now exists _userProvidedId, (v, sec, ts).
  - right; right; left. unfold effect, updateRegistry in Hexec.
    effect_returns Hexec Hown. injection Hexec as _ <- <-.
    repeat split; try assumption. left. now exists _registry.
  - right; right; left. unfold effect, withdraw in Hexec.
    effect_returns Hexec Hown.
    destruct (accepts c (owner s)); simpl in Hexec; [|discriminate].
    injection Hexec as _ <- <-.
    repeat split; try assumption. now right.
  - right; right; right. unfold effect, receive in Hexec. simpl in Hexec.
    injection Hexec as _ <- _. now exists value.
Qed.

(** A transaction leaves the record of a fulfilled id as it is. *)
Lemma transact_keeps_fulfilled (s : state) (t : tx) (id : Z) :
  fulfilled s id = true ->
  fulfilled (transact s t) id = true /\ stored (transact s t) id = stored s id.
Proof.
  intros Hful. unfold transact.
  destruct (exec (tx_chain t) (tx_sender t) s (tx_call t)) as [[[o s'] log]|e] eqn:Hexec;
    [|now split].
  apply exec_ok_cases in Hexec
    as [(id' & ret & _ & Hst) | [(-> & _) | [(_ & _ & Hv & Hf & Ht & Hs & _) | (v & _ & ->)]]];
    try (now split).
  - apply storeRandomness_ok_inv in Hst
      as (Hnot & rng & v & sec & ts & _ & _ & _ & _ & _ & ->).
    assert (id' <> id) as Hne by (intros ->; congruence).
    unfold fulfilled, stored in *; simpl.
    rewrite read_bool_insert_ne, !read_uint_insert_ne, read_bool_insert_ne by assumption.
    now split.
  - unfold fulfilled, stored in *. rewrite Hv, Hf, Ht, Hs. now split.
Qed.

Lemma run_keeps_fulfilled (txs : list tx) (s : state) (id : Z) :
  fulfilled s id = true ->
  fulfilled (run txs s) id = true /\ stored (run txs s) id = stored s id.
Proof.
  revert s. induction txs as [|t txs IH]; intros s Hful; [now split|].
  simpl. destruct (transact_keeps_fulfilled s t id Hful) as [Hf Hs].
  destruct (IH (transact s t) Hf) as [Hf' Hs'].
  split; [exact Hf' | now rewrite Hs'].
Qed.

Lemma transact_owner (s : state) (t : tx) : owner (transact s t) = owner s.
Proof.
  unfold transact.
  destruct (exec (tx_chain t) (tx_sender t) s (tx_call t)) as [[[o s'] log]|e] eqn:Hexec;
    [|reflexivity].
  apply exec_ok_cases in Hexec
    as [(id & ret & _ & Hst) | [(-> & _) | [(_ & _ & _ & _ & _ & _ & Ho & _) | (v & _ & ->)]]];
    try reflexivity; try assumption.
  now apply storeRandomness_ok_inv in Hst as (_ & ? & ? & ? & ? & _ & _ & _ & _ & _ & ->).
Qed.

Lemma run_owner (txs : list tx) (s : state) : owner (run txs s) = owner s.
Proof.
  revert s. induction txs as [|t txs IH]; intros s; [reflexivity|].
  simpl. fold (run txs (transact s t)). now rewrite IH, transact_owner.
Qed.

Lemma storeRandomness_fulfilled (c : chain) (s : state) (id : Z) :
  fulfilled s id = true -> storeRandomness c s id = Revert AlreadyFulfilled.
Proof.
  unfold fulfilled, storeRandomness. now intros ->.
Qed.

(** C2. Once an id is fulfilled, no sequence of transactions on the contract
    changes its stored (randomValue, isSecure, sourceTimestamp) triple or
    clears its flag, and a later [storeRandomness] on the id, whatever the
    beacon then reports, reverts with "Already fulfilled" and leaves the
    storage as it was: the first writer wins. *)
Theorem fulfilled_at_most_once (s : state) (id : Z) (txs : list tx) :
  fulfilled s id = true ->
  fulfilled (run txs s) id = true
  /\ stored (run txs s) id = stored s id
  /\ forall (c : chain) (sender : Z),
       storeRandomness c (run txs s) id = Revert AlreadyFulfilled
       /\ transact (run txs s) (mkTx c sender (StoreRandomness id)) = run txs s.
Proof.
  intros Hful. destruct (run_keeps_fulfilled txs s id Hful) as [Hf Hs].
  repeat split; try assumption.
  - now apply storeRandomness_fulfilled.
  - unfold transact; simpl. now rewrite storeRandomness_fulfilled.
Qed.

Lemma fulfilled_at_most_once_witness :
  fulfilled (run later_calls after_store) 5 = true
  /\ stored (run later_calls after_store) 5 = (36, true, 1000)
  /\ storeRandomness later_chain (run later_calls after_store) 5 = Revert AlreadyFulfilled.
Proof.
  destruct (fulfilled_at_most_once after_store 5 later_calls) as (Hf & Hs & Hc).
  - vm_compute. reflexivity.
  - split; [exact Hf | split].
    + rewrite Hs. vm_compute. reflexivity.
    + apply (Hc later_chain 9).
Defined.

(** C3, as the code has it. [storeRandomness] reverts with "Already
    fulfilled" when the id has a record. Otherwise it asks the registry for
    the beacon and reverts when that call fails, or with "SRNG not resolved"
    when the registry names the zero address; then it asks the beacon and
    reverts when that call fails, or with "SRNG not ready" when the value
    is zero; else it stores the triple, sets the flag, emits the event and
    returns the stored values, touching no other id and none of owner,
    registry and balance. A call that reverts, for whatever reason, persists
    nothing. *)
Theorem storeRandomness_outcomes (c : chain) (s : state) (id : Z) :
  (fulfilled s id = true -> storeRandomness c s id = Revert AlreadyFulfilled)
  /\ (fulfilled s id = false ->
      (getContractAddressByName c (registry s) "RandomNumberV2" = None ->
       storeRandomness c s id = Revert CallFailed)
      /\ (getContractAddressByName c (registry s) "RandomNumberV2" = Some 0 ->
          storeRandomness c s id = Revert (Error "SRNG not resolved"))
      /\ (forall rng,
            getContractAddressByName c (registry s) "RandomNumberV2" = Some rng ->
            rng <> 0 ->
            (getRandomNumber c rng = None ->
             storeRandomness c s id = Revert CallFailed)
            /\ (forall sec ts,
                  getRandomNumber c rng = Some (0, sec, ts) ->
                  storeRandomness c s id = Revert BeaconNotReady)
            /\ (forall v sec ts,
                  getRandomNumber c rng = Some (v, sec, ts) ->
                  v <> 0 ->
                  exists s',
                    storeRandomness c s id
                    = Ok ((v, sec, ts), s', [RandomnessStored id v sec ts])
                    /\ stored s' id = (v, sec, ts)
                    /\ fulfilled s' id = true
                    /\ (forall id', id' <> id ->
                          stored s' id' = stored s id'
                          /\ fulfilled s' id' = fulfilled s id')
                    /\ owner s' = owner s /\ registry s' = registry s
                    /\ balance s' = balance s)))
  /\ (forall (sender : Z) (e : error),
        exec c sender s (StoreRandomness id) = Revert e ->
        transact s (mkTx c sender (StoreRandomness id)) = s).
Proof.
  split; [apply storeRandomness_fulfilled|]. split.
  - intros Hnot. unfold fulfilled in Hnot.
    unfold storeRandomness, srng. rewrite Hnot. cbn [negb require bind].
    split; [now intros ->|]. split; [now intros ->|].
    intros rng -> Hrng. apply Z.eqb_neq in Hrng. rewrite Hrng. cbn [negb require bind].
    split; [now intros ->|]. split; [now intros sec ts ->|].
    intros v sec ts -> Hv. apply Z.eqb_neq in Hv. rewrite Hv. cbn [negb require bind].
    eexists. split; [reflexivity|].
    unfold stored, fulfilled; simpl.
    rewrite !read_uint_insert, !read_bool_insert.
    repeat split; try reflexivity.
    + rewrite !read_uint_insert_ne, read_bool_insert_ne by congruence. reflexivity.
    + now rewrite read_bool_insert_ne by congruence.
  - intros sender e Hrev. unfold transact; simpl. simpl in Hrev. now rewrite Hrev.
Qed.

Lemma storeRandomness_outcomes_witness :
  storeRandomness later_chain after_store 5 = Revert AlreadyFulfilled
  /\ storeRandomness unresolved_chain deployed 5 = Revert (Error "SRNG not resolved")
  /\ (exists s',
        storeRandomness sample_chain deployed 5
        = Ok ((36, true, 1000), s', [RandomnessStored 5 36 true 1000])
        /\ stored s' 5 = (36, true, 1000) /\ fulfilled s' 5 = true).
Proof.
  split; [|split].
  - apply (proj1 (storeRandomness_outcomes later_chain after_store 5)).
    vm_compute. reflexivity.
  - destruct (proj1 (proj2 (storeRandomness_outcomes unresolved_chain deployed 5)))
      as (_ & Hzero & _); [vm_compute; reflexivity|].
    apply Hzero. reflexivity.
  - destruct (proj1 (proj2 (storeRandomness_outcomes sample_chain deployed 5)))
      as (_ & _ & Hrng); [vm_compute; reflexivity|].
    destruct (Hrng 7) as (_ & _ & Hok); [reflexivity | discriminate |].
    destruct (Hok 36 true 1000) as (s' & Hst & Hs & Hf & _);
      [reflexivity | discriminate |].
    exists s'. split; [exact Hst|]. split; [exact Hs | exact Hf].
Defined.

(** C3, as the specification words it, fails: id 5 has no record, the
    registry names the zero address for the beacon, and the call reverts
    with "SRNG not resolved": it fetches no beacon value, fails with neither
    of the two failures of the claim, and stores nothing. *)
Lemma storeRandomness_not_resolved :
  fulfilled deployed 5 = false
  /\ storeRandomness unresolved_chain deployed 5 = Revert (Error "SRNG not resolved")
  /\ Error "SRNG not resolved" <> AlreadyFulfilled
  /\ Error "SRNG not resolved" <> BeaconNotReady.
Proof. repeat split; try reflexivity; discriminate. Qed.

(** C5. For a fulfilled id, [getNormalizedRandomValue] returns the stored
    randomValue modulo 1000, a value between 0 and 999, and two storages
    that hold the same randomValue for the id give the same answer. *)
Theorem getNormalizedRandomValue_spec (s : state) (id : Z) :
  fulfilled s id = true ->
  let randomValue := read_uint (userProvidedIdToRandomValue s) id in
  getNormalizedRandomValue s id = Ok (randomValue mod 1000, true)
  /\ 0 <= randomValue mod 1000 <= 999
  /\ forall s' id',
       fulfilled s' id' = true ->
       read_uint (userProvidedIdToRandomValue s') id' = randomValue ->
       getNormalizedRandomValue s' id' = getNormalizedRandomValue s id.
Proof.
  intros Hful randomValue.
  assert (forall s0 id0, fulfilled s0 id0 = true ->
            getNormalizedRandomValue s0 id0
            = Ok (read_uint (userProvidedIdToRandomValue s0) id0 mod 1000, true)) as Hret.
  { intros s0 id0 H0. unfold getNormalizedRandomValue. unfold fulfilled in H0.
    now rewrite H0. }
  repeat split.
  - now apply Hret.
  - apply Z.mod_pos_bound. lia.
  - pose proof (Z.mod_pos_bound randomValue 1000). lia.
  - intros s' id' Hful' Hsame. rewrite (Hret s' id' Hful'), (Hret s id Hful).
    now rewrite Hsame.
Qed.

Lemma getNormalizedRandomValue_spec_witness :
  getNormalizedRandomValue after_store 5 = Ok (36, true).
Proof.
  destruct (getNormalizedRandomValue_spec after_store 5) as (Hret & _).
  - vm_compute. reflexivity.
  - exact Hret.
Defined.


Lemma variationFactor_value (randomValue P : Z) :
  0 <= P < UINT256_MOD ->
  variationFactor randomValue P =
  if (2 * P + 1 <? UINT256_MOD) && (randomValue mod (2 * P + 1) <? 2 ^ 255)
  then Ok (randomValue mod (2 * P + 1) - P)
  else Revert OVERFLOW.
Proof.
  intros HP. pose proof pow256 as HM. pose proof pow255_pos as HH.
  unfold variationFactor.
  destruct (Z.ltb_spec (2 * P + 1) UINT256_MOD) as [Hfit|Hbig]; simpl.
  - rewrite mul_ok by lia; simpl. rewrite add_ok by lia; simpl.
    rewrite mod_ok by lia; simpl.
    pose proof (Z.mod_pos_bound randomValue (2 * P + 1)) as Hrem.
    rewrite (int256_small P) by lia.
    destruct (Z.ltb_spec (randomValue mod (2 * P + 1)) (2 ^ 255)) as [Hlo|Hhi].
    + rewrite int256_small by lia. apply isub_ok. lia.
    + rewrite int256_large by lia. apply isub_overflow. lia.
  - destruct (Z_lt_dec (2 * P) UINT256_MOD) as [Hmul|Hmul].
    + rewrite mul_ok by lia; simpl. now rewrite add_overflow by lia.
    + now rewrite mul_overflow by lia.
Qed.

Lemma applyVariation_value (B vf : Z) :
  0 <= B < UINT256_MOD -> - 2 ^ 255 < vf < 2 ^ 255 ->
  applyVariation B vf =
  if (B * Z.abs vf <? UINT256_MOD)
     && (if 0 <=? vf
         then B + Z.quot (B * vf) 100 <? UINT256_MOD
         else Z.quot (B * Z.abs vf) 100 <=? B)
  then Ok (if 0 <=? vf then B + Z.quot (B * vf) 100 else B - Z.quot (B * Z.abs vf) 100)
  else Revert OVERFLOW.
Proof.
  intros HB Hvf. pose proof pow256 as HM. pose proof pow255_pos as HH.
  unfold applyVariation.
  destruct (Z.leb_spec 0 vf) as [Hpos|Hneg].
  - rewrite uint256_small, Z.abs_eq by lia.
    assert (0 <= B * vf) by nia.
    rewrite Z.quot_div_nonneg by lia.
    assert (0 <= B * vf / 100) by (apply Z.div_pos; lia).
    destruct (Z.ltb_spec (B * vf) UINT256_MOD) as [Hmul|Hmul]; simpl.
    + rewrite mul_ok by lia; simpl.
      destruct (Z.ltb_spec (B + B * vf / 100) UINT256_MOD) as [Hadd|Hadd].
      * apply add_ok. lia.
      * apply add_overflow. lia.
    + now rewrite mul_overflow by lia.
  - rewrite ineg_ok by lia; simpl.
    rewrite uint256_small by lia. rewrite Z.abs_neq by lia.
    assert (0 <= B * - vf) by nia.
    rewrite Z.quot_div_nonneg by lia.
    assert (0 <= B * - vf / 100) by (apply Z.div_pos; lia).
    destruct (Z.ltb_spec (B * - vf) UINT256_MOD) as [Hmul|Hmul]; simpl.
    + rewrite mul_ok by lia; simpl.
      destruct (Z.leb_spec (B * - vf / 100) B) as [Hsub|Hsub].
      * apply sub_ok. lia.
      * apply sub_overflow. lia.
    + now rewrite mul_overflow by lia.
Qed.

Lemma variationFactor_ok_inv (randomValue P vf : Z) :
  variationFactor randomValue P = Ok vf ->
  0 <= P < 2 ^ 255
  /\ vf = randomValue mod (2 * P + 1) - P
  /\ - P <= vf <= P.
Proof.
  intros Hvf. pose proof pow256 as HM. pose proof pow255_pos as HH.
  assert (0 <= 2 * P < UINT256_MOD) as H2P.
  { unfold variationFactor, mul in Hvf.
    destruct (in_uint256 (2 * P)) eqn:Hin; [|discriminate].
    now apply in_uint256_spec. }
  rewrite variationFactor_value in Hvf by lia.
  destruct (Z.ltb_spec (2 * P + 1) UINT256_MOD); simpl in Hvf; [|discriminate].
  destruct (Z.ltb_spec (randomValue mod (2 * P + 1)) (2 ^ 255)); [|discriminate].
  injection Hvf as <-.
  pose proof (Z.mod_pos_bound randomValue (2 * P + 1)). lia.
Qed.

(** C4, as the code has it. For a fulfilled id and uint256 arguments B and
    P, with vf = (randomValue mod (2P+1)) - P, which lies in [-P, +P]: when
    every checked operation stays in the range of its type the call returns
    vf and finalPrice = B + B*vf/100 for vf >= 0, B - B*|vf|/100 otherwise,
    the division truncating toward zero; when one does not, the call reverts
    with Panic(0x11) and returns nothing. With B = 10_000, P = 10 and
    randomValue mod 21 = 15 it returns vf = 5 and finalPrice = 10_500. *)
Theorem getRandomPriceVariation_spec (s : state) (id B P : Z) :
  fulfilled s id = true ->
  0 <= B < UINT256_MOD ->
  0 <= P < UINT256_MOD ->
  let randomValue := read_uint (userProvidedIdToRandomValue s) id in
  let vf := randomValue mod (2 * P + 1) - P in
  - P <= vf <= P
  /\ getRandomPriceVariation s id B P =
     (if price_in_range randomValue B P
      then Ok (if 0 <=? vf
               then B + Z.quot (B * vf) 100
               else B - Z.quot (B * Z.abs vf) 100,
               vf, true)
      else Revert OVERFLOW)
  /\ (B = 10000 -> P = 10 -> randomValue mod 21 = 15 ->
      getRandomPriceVariation s id B P = Ok (10500, 5, true)).
Proof.
  intros Hful HB HP randomValue vf.
  pose proof pow256 as HM. pose proof pow255_pos as HH.
  pose proof (Z.mod_pos_bound randomValue (2 * P + 1)) as Hrem.
  assert (getRandomPriceVariation s id B P =
          if price_in_range randomValue B P
          then Ok (if 0 <=? vf
                   then B + Z.quot (B * vf) 100
                   else B - Z.quot (B * Z.abs vf) 100,
                   vf, true)
          else Revert OVERFLOW) as Hret.
  { unfold getRandomPriceVariation. unfold fulfilled in Hful. rewrite Hful; simpl.
    fold randomValue. rewrite variationFactor_value by assumption.
    unfold price_in_range. fold vf.
    destruct (Z.ltb_spec (2 * P + 1) UINT256_MOD) as [Hfit|]; simpl; [|reflexivity].
    destruct (Z.ltb_spec (randomValue mod (2 * P + 1)) (2 ^ 255)) as [Hlo|]; simpl;
      [|reflexivity].
    fold vf. rewrite applyVariation_value by (unfold vf; lia).
    destruct (B * Z.abs vf <? UINT256_MOD); simpl; [|reflexivity].
    destruct (0 <=? vf).
    - now destruct (B + Z.quot (B * vf) 100 <? UINT256_MOD).
    - now destruct (Z.quot (B * Z.abs vf) 100 <=? B). }
  split; [unfold vf; lia|]. split; [exact Hret|].
  intros -> -> H15. rewrite Hret. unfold price_in_range, vf.
  change (2 * 10 + 1) with 21. rewrite H15. reflexivity.
Qed.

Lemma getRandomPriceVariation_spec_witness :
  getRandomPriceVariation after_store 5 10000 10 = Ok (10500, 5, true).
Proof.
  destruct (getRandomPriceVariation_spec after_store 5 10000 10) as (_ & _ & Hex);
    try (vm_compute; split; [discriminate | reflexivity]).
  - vm_compute. reflexivity.
  - apply Hex; reflexivity.
Defined.

(** C4, as the specification words it, fails: id 5 is fulfilled with
    randomValue 36, and for B = 2 and P = 200 the factor is -164, the
    adjustment 2 * 164 / 100 = 3 exceeds B, and the call reverts. *)
Lemma getRandomPriceVariation_reverts :
  fulfilled after_store 5 = true
  /\ stored after_store 5 = (36, true, 1000)
  /\ getRandomPriceVariation after_store 5 2 200 = Revert OVERFLOW.
Proof. vm_compute. repeat split. Qed.

(** C10, as the code has it. For a fulfilled id and uint256 B and P, let
    vf = (randomValue mod (2P+1)) - P and suppose B * |vf| < 100. When line
    170 stays in range (2P+1 < 2^256 and randomValue mod (2P+1) < 2^255)
    the call returns finalPrice = B together with vf, also when vf is not
    zero; when it does not, the call reverts with Panic(0x11). *)
Theorem small_base_price_keeps_base (s : state) (id B P : Z) :
  fulfilled s id = true ->
  0 <= B < UINT256_MOD ->
  0 <= P < UINT256_MOD ->
  B * Z.abs (read_uint (userProvidedIdToRandomValue s) id mod (2 * P + 1) - P) < 100 ->
  getRandomPriceVariation s id B P =
  if (2 * P + 1 <? UINT256_MOD)
     && (read_uint (userProvidedIdToRandomValue s) id mod (2 * P + 1) <? 2 ^ 255)
  then Ok (B, read_uint (userProvidedIdToRandomValue s) id mod (2 * P + 1) - P, true)
  else Revert OVERFLOW.
Proof.
  intros Hful HB HP Hsmall.
  pose proof pow256 as HM. pose proof pow255_pos as HH.
  unfold getRandomPriceVariation. unfold fulfilled in Hful. rewrite Hful; simpl.
  set (randomValue := read_uint (userProvidedIdToRandomValue s) id) in *.
  pose proof (Z.mod_pos_bound randomValue (2 * P + 1)) as Hrem.
  rewrite variationFactor_value by assumption.
  destruct (Z.ltb_spec (2 * P + 1) UINT256_MOD) as [Hfit|]; simpl; [|reflexivity].
  destruct (Z.ltb_spec (randomValue mod (2 * P + 1)) (2 ^ 255)) as [Hlo|]; simpl;
    [|reflexivity].
  set (vf := randomValue mod (2 * P + 1) - P) in *.
  rewrite applyVariation_value by (unfold vf; lia).
  assert (0 <= B * Z.abs vf) as Hnn by (apply Z.mul_nonneg_nonneg; lia).
  assert (Z.quot (B * Z.abs vf) 100 = 0) as Hzero by (apply Z.quot_small; lia).
  assert (100 < UINT256_MOD) as H100 by reflexivity.
  destruct (Z.ltb_spec (B * Z.abs vf) UINT256_MOD); [simpl | lia].
  destruct (Z.leb_spec 0 vf) as [Hpos|Hneg].
  - rewrite Z.abs_eq in Hzero by lia. rewrite Hzero, Z.add_0_r.
    destruct (Z.ltb_spec B UINT256_MOD); [reflexivity | lia].
  - rewrite Hzero, Z.sub_0_r.
    destruct (Z.leb_spec 0 B); [reflexivity | lia].
Qed.

Lemma small_base_price_keeps_base_witness :
  getRandomPriceVariation after_store 5 10 10 = Ok (10, 5, true).
Proof.
  rewrite (small_base_price_keeps_base after_store 5 10 10).
  - vm_compute. reflexivity.
  - vm_compute. reflexivity.
  - vm_compute. split; [discriminate | reflexivity].
  - vm_compute. split; [discriminate | reflexivity].
  - vm_compute. reflexivity.
Defined.

(** C10, as the specification words it, fails: id 5 is fulfilled with
    randomValue 2^255 + 5; for B = 1 and P = 2^255 - 1 the factor is 6 and
    B * |6| < 100, yet the conversion to int256 wraps, the signed
    subtraction overflows, and the call reverts instead of returning B. *)
Lemma small_base_price_reverts :
  fulfilled after_high_store 5 = true
  /\ read_uint (userProvidedIdToRandomValue after_high_store) 5 = 2 ^ 255 + 5
  /\ (2 ^ 255 + 5) mod (2 * (2 ^ 255 - 1) + 1) - (2 ^ 255 - 1) = 6
  /\ 1 * Z.abs 6 < 100
  /\ getRandomPriceVariation after_high_store 5 1 (2 ^ 255 - 1) = Revert OVERFLOW.
Proof. vm_compute. repeat split. Qed.

(** C6. [getRandomValue], [getNormalizedRandomValue] and
    [getRandomPriceVariation] leave the storage as it is and emit nothing,
    whether they return or revert; for an id with no record each of them
    returns, with its fulfilled flag false. *)
Theorem reads_are_pure (c : chain) (sender : Z) (s : state) (id B P : Z) (f : call) :
  f = GetRandomValue id \/ f = GetNormalizedRandomValue id
  \/ f = GetRandomPriceVariation id B P ->
  transact s (mkTx c sender f) = s
  /\ (forall o s' log, exec c sender s f = Ok (o, s', log) -> s' = s /\ log = [])
  /\ (fulfilled s id = false ->
      getRandomValue s id = Ok (read_uint (userProvidedIdToRandomValue s) id, false)
      /\ getNormalizedRandomValue s id = Ok (0, false)
      /\ getRandomPriceVariation s id B P = Ok (B, 0, false)
      /\ exists o, exec c sender s f = Ok (o, s, [])).
Proof.
  intros Hf.
  assert (forall o s' log, exec c sender s f = Ok (o, s', log) -> s' = s /\ log = [])
    as Hpure.
  { intros o s' log Hexec.
    apply exec_ok_cases in Hexec
      as [(id' & ret & -> & _) | [(-> & -> & _) | [(_ & _ & _ & _ & _ & _ & _ & Hcall)
                                                  | (v & -> & _)]]].
    - destruct Hf as [Hf | [Hf | Hf]]; discriminate.
    - now split.
    - destruct Hcall as [(r & -> & _) | (-> & _)];
        destruct Hf as [Hf | [Hf | Hf]]; discriminate.
    - destruct Hf as [Hf | [Hf | Hf]]; discriminate. }
  split; [|split; [exact Hpure|]].
  - unfold transact; simpl.
    destruct (exec c sender s f) as [[[o s'] log]|e] eqn:Hexec; [|reflexivity].
    now destruct (Hpure o s' log eq_refl).
  - intros Hnot. unfold fulfilled in Hnot.
    unfold getRandomValue, getNormalizedRandomValue, getRandomPriceVariation.
    rewrite Hnot; simpl. repeat split.
    destruct Hf as [-> | [-> | ->]]; simpl;
      unfold view, getRandomValue, getNormalizedRandomValue, getRandomPriceVariation;
      rewrite Hnot; simpl; eexists; reflexivity.
Qed.

Lemma reads_are_pure_witness :
  transact after_store (mkTx sample_chain 9 (GetRandomPriceVariation 6 800 10)) = after_store
  /\ getRandomPriceVariation after_store 6 800 10 = Ok (800, 0, false).
Proof.
  destruct (reads_are_pure sample_chain 9 after_store 6 800 10
                           (GetRandomPriceVariation 6 800 10))
    as (Hsame & _ & Hnone).
  - right; right; reflexivity.
  - split; [exact Hsame|]. apply Hnone. vm_compute. reflexivity.
Defined.

(** C9. The constructor makes the deployer the owner, no sequence of
    transactions changes the owner, and [updateRegistry] and [withdraw]
    sent by anyone but the owner revert with "Only owner" and leave the
    storage as it is. *)
Theorem owner_is_fixed (deployer _registry : Z) (txs : list tx) :
  owner (constructor deployer _registry) = deployer
  /\ owner (run txs (constructor deployer _registry)) = deployer
  /\ (forall s, owner (run txs s) = owner s)
  /\ (forall (c : chain) (s : state) (sender r : Z),
        sender <> owner s ->
        updateRegistry s sender r = Revert OnlyOwner
        /\ withdraw c s sender = Revert OnlyOwner
        /\ transact s (mkTx c sender (UpdateRegistry r)) = s
        /\ transact s (mkTx c sender Withdraw) = s).
Proof.
  split; [reflexivity|]. split; [now rewrite run_owner|]. split; [apply run_owner|].
  intros c s sender r Hne.
  unfold transact; simpl. unfold effect, updateRegistry, withdraw.
  rewrite (onlyOwner_other s sender Hne); simpl. now repeat split.
Qed.

Lemma owner_is_fixed_witness :
  owner (run later_calls deployed) = 1
  /\ updateRegistry after_store 9 3 = Revert OnlyOwner
  /\ withdraw sample_chain after_store 9 = Revert OnlyOwner.
Proof.
  destruct (owner_is_fixed 1 2 later_calls) as (_ & Hrun & _ & Hguard).
  split; [exact Hrun|].
  destruct (Hguard sample_chain after_store 9 3) as (Hup & Hwd & _).
  - vm_compute. discriminate.
  - split; [exact Hup | exact Hwd].
Defined.
End RandomizerFacts.

(** ** The verification endpoint *)

Module ControllerFacts.
Import Controller.

Lemma hex_digits_rest (n : nat) (r : rng) (k : nat) :
  snd (hex_digits n r) k = r (n + k)%nat.
Proof.
  revert r. induction n as [|n IH]; intros r; [reflexivity|].
  simpl. destruct (hex_digits n (fun i => r (S i))) as [rest r2] eqn:Hrest.
  simpl. change r2 with (snd (rest, r2)). rewrite <- Hrest. now rewrite IH.
Qed.

Lemma hex_digits_ext (n : nat) (r r' : rng) :
  (forall k, (k < n)%nat -> r k = r' k) ->
  fst (hex_digits n r) = fst (hex_digits n r').
Proof.
  revert r r'. induction n as [|n IH]; intros r r' Hsame; [reflexivity|].
  simpl.
  specialize (IH (fun i => r (S i)) (fun i => r' (S i))).
  destruct (hex_digits n (fun i => r (S i))) as [rest r2].
  destruct (hex_digits n (fun i => r' (S i))) as [rest' r2'].
  simpl in *. rewrite (Hsame 0%nat) by lia. f_equal.
  apply IH. intros k Hk. apply Hsame. lia.
Qed.

(** The response of an invocation that finds a requestId, from the draws. *)
Lemma verifyAttestation_mock (body : jsval) (r : rng) :
  has_requestId body = true ->
  fst (verifyAttestation body r) =
  mkResponse 200
    (MockResult (negb (Qle_bool (r 0%nat) (1 # 2)))
                (if negb (Qle_bool (r 1%nat) (1 # 2)) then "verified" else "pending")
                "Attestation verification result"
                ("0x" ++ fst (hex_digits 64 (fun k => r (2 + k)%nat)))
                ("0x" ++ fst (hex_digits 128 (fun k => r (66 + k)%nat)))).
Proof.
  unfold has_requestId, verifyAttestation. intros Hid.
  destruct (destructure_requestId body) as [requestId|]; [|discriminate].
  rewrite Hid. unfold random. cbn [negb].
  destruct (hex_digits 64 (fun n => r (S (S n)))) as [att r3] eqn:Hatt.
  destruct (hex_digits 128 r3) as [prf r4] eqn:Hprf.
  cbn [fst]. do 2 f_equal.
  - change att with (fst (att, r3)). now rewrite <- Hatt.
  - f_equal. change prf with (fst (prf, r4)). rewrite <- Hprf.
    apply hex_digits_ext. intros k _.
    change r3 with (snd (att, r3)). rewrite <- Hatt. now rewrite hex_digits_rest.
Qed.




End ControllerFacts.

(** ** The ledger *)

Module LedgerFacts.
Import Ledger.

Lemma deliverData_delivered (cfg : config) (l : ledger) (id : Z) (req : PurchaseRequest)
      (resp : Z) (proof : list Z) :
  delivered_as l id req -> deliverData cfg l id resp proof = inl AlreadyDelivered.
Proof.
  intros [Hreq Hst]. unfold deliverData. now rewrite Hreq, Hst.
Qed.

(** A successful delivery leaves the request delivered, with its hash. *)
Lemma deliverData_ok (cfg : config) (l l' : ledger) (id resp : Z) (proof : list Z)
      (log : list event) :
  deliverData cfg l id resp proof = inr (l', log) ->
  exists req, delivered_as l' id req
              /\ dataHash req = Some (computeDataHash cfg id resp).
Proof.
  unfold deliverData.
  destruct (requests l !! id) as [req|]; [|discriminate].
  destruct (is_delivered (state req)); [discriminate|].
  destruct (verifyProof cfg resp proof); simpl; [|discriminate].
  intros H. injection H as <- _.
  eexists. split; [split|]; simpl; [apply lookup_insert_eq | reflexivity | reflexivity].
Qed.

Lemma transact_keeps_delivered (cfg : config) (l : ledger) (c : call) (id : Z)
      (req : PurchaseRequest) :
  delivered_as l id req -> delivered_as (transact cfg l c) id req.
Proof.
  intros Hd. pose proof Hd as [Hreq Hst]. unfold transact.
  destruct c as [sender id' payment | id' resp proof]; simpl.
  - unfold purchase.
    destruct (requests l !! id') as [other|] eqn:Hother; [exact Hd|].
    destruct (payment <? minimumPayment cfg); [exact Hd|].
    split; [|exact Hst]. simpl.
    rewrite lookup_insert_ne by congruence. exact Hreq.
  - destruct (Z.eq_dec id' id) as [->|Hne].
    + now rewrite (deliverData_delivered cfg l id req).
    + unfold deliverData.
      destruct (requests l !! id') as [other|]; [|exact Hd].
      destruct (is_delivered (state other)); [exact Hd|].
      destruct (verifyProof cfg resp proof); simpl; [|exact Hd].
      split; [|exact Hst]. simpl.
      rewrite lookup_insert_ne by congruence. exact Hreq.
Qed.

Lemma run_keeps_delivered (cfg : config) (calls : list call) (l : ledger) (id : Z)
      (req : PurchaseRequest) :
  delivered_as l id req -> delivered_as (run cfg calls l) id req.
Proof.
  revert l. induction calls as [|c calls IH]; intros l Hd; [exact Hd|].
  simpl. apply IH. now apply transact_keeps_delivered.
Qed.

Lemma no_delivery_once_delivered (cfg : config) (calls : list call) (l : ledger) (id : Z)
      (req : PurchaseRequest) :
  delivered_as l id req -> deliveries cfg id calls l = 0%nat.
Proof.
  revert l. induction calls as [|c calls IH]; intros l Hd; [reflexivity|].
  simpl. rewrite (IH _ (transact_keeps_delivered cfg l c id req Hd)).
  destruct c as [sender id' payment | id' resp proof]; simpl; [reflexivity|].
  destruct (Z.eqb_spec id' id) as [->|]; simpl; [|reflexivity].
  now rewrite (deliverData_delivered cfg l id req).
Qed.

Lemma deliveries_at_most_one (cfg : config) (calls : list call) (l : ledger) (id : Z) :
  (deliveries cfg id calls l <= 1)%nat.
Proof.
  revert l. induction calls as [|c calls IH]; intros l; simpl; [lia|].
  destruct (delivers cfg id l c) eqn:Hdel; [|apply IH].
  destruct c as [sender id' payment | id' resp proof]; simpl in Hdel; [discriminate|].
  destruct (Z.eqb_spec id' id) as [->|]; simpl in Hdel; [|discriminate].
  unfold transact; simpl.
  destruct (deliverData cfg l id resp proof) as [|[l' log]] eqn:Hok; [discriminate|].
  apply deliverData_ok in Hok as (req & Hd & _).
  rewrite (no_delivery_once_delivered cfg calls l' id req Hd). lia.
Qed.

(** C1. Along any sequence of ledger calls at most one [deliverData] for a
    given requestId succeeds. Once a request is delivered, whatever calls
    follow, its record (state and dataHash included) stays as it is, and any
    further [deliverData] for it, with any attestation response and proof,
    fails with AlreadyDelivered and persists nothing. *)
Theorem deliverData_at_most_once (cfg : config) (l : ledger) (id : Z)
        (req : PurchaseRequest) (calls : list call) :
  requests l !! id = Some req ->
  state req = Delivered ->
  requests (run cfg calls l) !! id = Some req
  /\ (forall (resp : Z) (proof : list Z),
        deliverData cfg (run cfg calls l) id resp proof = inl AlreadyDelivered
        /\ transact cfg (run cfg calls l) (DeliverData id resp proof) = run cfg calls l)
  /\ (forall (l0 : ledger) (calls0 : list call),
        (deliveries cfg id calls0 l0 <= 1)%nat).
Proof.
  intros Hreq Hst.
  assert (delivered_as (run cfg calls l) id req) as Hd
      by (now apply run_keeps_delivered).
  split; [apply Hd|]. split.
  - intros resp proof. unfold transact; simpl.
    now rewrite (deliverData_delivered cfg _ id req resp proof Hd).
  - intros l0 calls0. apply deliveries_at_most_one.
Qed.

Lemma deliverData_at_most_once_witness :
  requests (run sample_config more_calls delivered_ledger) !! 170
  = Some (mkRequest 1 10 Delivered (Some 1))
  /\ deliverData sample_config (run sample_config more_calls delivered_ledger) 170 9 [3]
     = inl AlreadyDelivered.
Proof.
  destruct (deliverData_at_most_once sample_config delivered_ledger 170
              (mkRequest 1 10 Delivered (Some 1)) more_calls) as (Hkeep & Hfail & _).
  - vm_compute. reflexivity.
  - reflexivity.
  - split; [exact Hkeep | apply (Hfail 9 [3])].
Defined.

End LedgerFacts.

(** ** Endpoint configuration *)

Module ConfigurationFacts.
Import Sol Randomizer RandomizerFacts FlareServices.

Lemma registry_after (s : state) (t : tx) :
  registry (transact s t) =
  match tx_call t with
  | UpdateRegistry r => if tx_sender t =? owner s then r else registry s
  | _ => registry s
  end.
Proof.
  destruct t as [c sender f]. unfold transact; simpl.
  destruct f; simpl; try reflexivity;
    try match goal with
        | |- context [view _ _ ?r] => unfold view; now destruct r
        end.
  - destruct (storeRandomness c s _userProvidedId) as [[[ret s'] log]|e] eqn:Hst; simpl.
    + destruct ret as [[v sec] ts].
      now apply storeRandomness_ok_inv in Hst as (_ & ? & ? & ? & ? & _ & _ & _ & _ & _ & ->).
    + reflexivity.
  - unfold effect, updateRegistry, onlyOwner, require.
    now destruct (sender =? owner s).
  - unfold effect, withdraw, onlyOwner, require.
    destruct (sender =? owner s); simpl; [|reflexivity].
    now destruct (accepts c (owner s)).
Qed.

Lemma or_else_given (v b : string) : v <> "" -> or_else (Some v) b = v.
Proof.
  intros Hv. unfold or_else. apply String.eqb_neq in Hv. now rewrite Hv.
Qed.

(** C7, as the code has it. The endpoint configuration is not read-only.
    On the contract, [updateRegistry] sent by the owner replaces the
    registry address; every other transaction, and [updateRegistry] sent by
    anyone else, leaves it as it is. In the browser, each run of the
    assignment in [initializeBlockchain] overwrites the RPC endpoint and the
    hub and verification addresses with the non-empty values of the
    backend's answer, and keeps the current value of a field the answer
    leaves out. *)
Theorem configuration_changes (s : state) (t : tx)
        (config : backendConfig) (current : contractConfig) :
  registry (transact s t) =
    match tx_call t with
    | UpdateRegistry r => if tx_sender t =? owner s then r else registry s
    | _ => registry s
    end
  /\ (forall v, v <> "" -> config_rpcUrl config = Some v ->
        rpcUrl (updateContractConfig config current) = v)
  /\ (forall v, v <> "" -> config_fdcHubAddress config = Some v ->
        fdcHubAddress (updateContractConfig config current) = v)
  /\ (forall v, v <> "" -> config_fdcVerificationAddress config = Some v ->
        fdcVerificationAddress (updateContractConfig config current) = v)
  /\ (config_rpcUrl config = None ->
      rpcUrl (updateContractConfig config current) = rpcUrl current)
  /\ (config_fdcHubAddress config = None ->
      fdcHubAddress (updateContractConfig config current) = fdcHubAddress current)
  /\ (config_fdcVerificationAddress config = None ->
      fdcVerificationAddress (updateContractConfig config current)
      = fdcVerificationAddress current).
Proof.
  split; [apply registry_after|].
  unfold updateContractConfig.
  destruct (String.eqb _ ""); cbn [rpcUrl fdcHubAddress fdcVerificationAddress];
    repeat split; try (intros v Hv ->; now apply or_else_given); now intros ->.
Qed.

Lemma configuration_changes_witness :
  rpcUrl (updateContractConfig other_backend initialContractConfig)
  = "https://coston-api.flare.network/ext/C/rpc"
  /\ fdcVerificationAddress (updateContractConfig other_backend initialContractConfig)
     = fdcVerificationAddress initialContractConfig.
Proof.
  destruct (configuration_changes deployed (mkTx sample_chain 1 Owner)
              other_backend initialContractConfig)
    as (_ & Hrpc & _ & _ & _ & _ & Hkeep).
  split.
  - apply Hrpc; [discriminate | reflexivity].
  - apply Hkeep. reflexivity.
Defined.

(** C7, as the specification words it, fails: the owner (address 1) moves
    the deployed contract from registry 2 to registry 3. *)
Lemma registry_is_not_read_only :
  registry (transact deployed (mkTx sample_chain 1 (UpdateRegistry 3)))
  <> registry deployed.
Proof. vm_compute. discriminate. Qed.

End ConfigurationFacts.

(** ** More on the randomness store: round trips, invariants, failures *)

Module RandomizerMore.
Import Sol SolFacts Randomizer RandomizerFacts.

(** X1. What [storeRandomness] returns for an id is what the three readers
    give back for it afterwards: the value with the flag set, the security
    flag and the timestamp, and the value modulo 1000; the value is never
    zero. *)
Theorem store_then_read (c : chain) (s s' : state) (id v ts : Z) (sec : bool)
        (log : list event) :
  storeRandomness c s id = Ok ((v, sec, ts), s', log) ->
  getRandomValue s' id = Ok (v, true)
  /\ getRandomnessMeta s' id = Ok (sec, ts, true)
  /\ getNormalizedRandomValue s' id = Ok (v mod 1000, true)
  /\ v <> 0.
Proof.
  intros Hst.
  apply storeRandomness_ok_inv in Hst
    as (_ & rng & v' & sec' & ts' & _ & _ & Hv & Hret & _ & ->).
  injection Hret as -> -> ->.
  unfold getRandomValue, getRandomnessMeta, getNormalizedRandomValue; simpl.
  rewrite !read_uint_insert, !read_bool_insert. simpl. now repeat split.
Qed.

Lemma store_then_read_witness :
  getRandomValue after_store 5 = Ok (36, true)
  /\ getRandomnessMeta after_store 5 = Ok (true, 1000, true).
Proof.
  destruct (store_then_read sample_chain deployed after_store 5 36 1000 true
              [RandomnessStored 5 36 true 1000]) as (Hv & Hm & _).
  - vm_compute. reflexivity.
  - split; [exact Hv | exact Hm].
Defined.

(** Storage agrees with its flags: a fulfilled id holds a non-zero value, an
    unfulfilled one holds nothing. *)
Lemma constructor_consistent (deployer r id : Z) :
  (fulfilled (constructor deployer r) id = true ->
   read_uint (userProvidedIdToRandomValue (constructor deployer r)) id <> 0)
  /\ (fulfilled (constructor deployer r) id = false ->
      stored (constructor deployer r) id = (0, false, 0)).
Proof.
  unfold fulfilled, stored, read_uint, read_bool; simpl.
  rewrite !lookup_empty; simpl. split; [discriminate | reflexivity].
Qed.

Lemma transact_consistent (s : state) (t : tx) :
  (forall id,
      (fulfilled s id = true -> read_uint (userProvidedIdToRandomValue s) id <> 0)
      /\ (fulfilled s id = false -> stored s id = (0, false, 0))) ->
  forall id,
    (fulfilled (transact s t) id = true ->
     read_uint (userProvidedIdToRandomValue (transact s t)) id <> 0)
    /\ (fulfilled (transact s t) id = false -> stored (transact s t) id = (0, false, 0)).
Proof.
  intros Hinv id. unfold transact.
  destruct (exec (tx_chain t) (tx_sender t) s (tx_call t)) as [[[o s'] log]|e] eqn:Hexec;
    [|apply Hinv].
  apply exec_ok_cases in Hexec
    as [(id' & ret & _ & Hst) | [(-> & _) | [(_ & _ & Hv & Hf & Ht & Hs & _) | (v & _ & ->)]]];
    try apply Hinv.
  - apply storeRandomness_ok_inv in Hst
      as (_ & rng & v & sec & ts & _ & _ & Hv & _ & _ & ->).
    unfold fulfilled, stored; simpl.
    destruct (Z.eq_dec id' id) as [->|Hne].
    + rewrite !read_uint_insert, !read_bool_insert. split; [now intros _ | discriminate].
    + rewrite !read_uint_insert_ne, !read_bool_insert_ne by assumption. apply Hinv.
  - unfold fulfilled, stored. rewrite Hv, Hf, Ht, Hs. apply Hinv.
Qed.

Lemma run_consistent (txs : list tx) (s : state) :
  (forall id,
      (fulfilled s id = true -> read_uint (userProvidedIdToRandomValue s) id <> 0)
      /\ (fulfilled s id = false -> stored s id = (0, false, 0))) ->
  forall id,
    (fulfilled (run txs s) id = true ->
     read_uint (userProvidedIdToRandomValue (run txs s)) id <> 0)
    /\ (fulfilled (run txs s) id = false -> stored (run txs s) id = (0, false, 0)).
Proof.
  revert s. induction txs as [|t txs IH]; intros s Hinv; [exact Hinv|].
  simpl. apply IH. now apply transact_consistent.
Qed.

(** X2. In every storage reached from deployment by transactions, an id is
    fulfilled exactly when its stored randomValue is not zero, and an
    unfulfilled id holds the all-zero triple. *)
Theorem value_nonzero_iff_fulfilled (deployer _registry : Z) (txs : list tx) (id : Z) :
  (fulfilled (run txs (constructor deployer _registry)) id = true
   <-> read_uint (userProvidedIdToRandomValue (run txs (constructor deployer _registry))) id
       <> 0)
  /\ (fulfilled (run txs (constructor deployer _registry)) id = false ->
      stored (run txs (constructor deployer _registry)) id = (0, false, 0)).
Proof.
  destruct (run_consistent txs (constructor deployer _registry)
              (constructor_consistent deployer _registry) id) as [Hnz Hzero].
  split; [split; [exact Hnz|] | exact Hzero].
  intros Hv. destruct (fulfilled _ id); [reflexivity|].
  specialize (Hzero eq_refl). unfold stored in Hzero. injection Hzero as Hval _ _.
  contradiction.
Qed.

Lemma value_nonzero_iff_fulfilled_witness :
  stored (run later_calls deployed) 7 = (0, false, 0).
Proof.
  apply (proj2 (value_nonzero_iff_fulfilled 1 2 later_calls 7)).
  vm_compute. reflexivity.
Defined.

(** X3. In every storage reached from deployment, [getRandomnessMeta]
    answers with what the public getters of the three mappings hold for the
    id: its guard on the flag never hides a stored value. *)
Theorem getRandomnessMeta_is_storage (deployer _registry : Z) (txs : list tx) (id : Z) :
  getRandomnessMeta (run txs (constructor deployer _registry)) id
  = Ok (read_bool (userProvidedIdIsSecure (run txs (constructor deployer _registry))) id,
        read_uint (userProvidedIdToTimestamp (run txs (constructor deployer _registry))) id,
        read_bool (userProvidedIdFulfilled (run txs (constructor deployer _registry))) id).
Proof.
  destruct (run_consistent txs (constructor deployer _registry)
              (constructor_consistent deployer _registry) id) as [_ Hzero].
  unfold getRandomnessMeta. unfold fulfilled, stored in Hzero.
  destruct (read_bool (userProvidedIdFulfilled _) id); simpl; [reflexivity|].
  specialize (Hzero eq_refl). injection Hzero as _ -> ->. reflexivity.
Qed.


(** X4. The ways [storeRandomness] fails, in the order the code checks them:
    "Already fulfilled" for an id with a record, whatever the registry and
    the beacon do; else a failed call to the registry; else "SRNG not
    resolved" when the registry names the zero address; else a failed call
    to the beacon; else "SRNG not ready" when the beacon reports zero. It
    fails in no other way, and never with a panic. *)
Theorem storeRandomness_failures (c : chain) (s : state) (id : Z) (e : error) :
  storeRandomness c s id = Revert e ->
  (e = AlreadyFulfilled /\ fulfilled s id = true)
  \/ (fulfilled s id = false /\
      ((e = CallFailed
        /\ getContractAddressByName c (registry s) "RandomNumberV2" = None)
       \/ (e = Error "SRNG not resolved"
           /\ getContractAddressByName c (registry s) "RandomNumberV2" = Some 0)
       \/ (exists rng,
              getContractAddressByName c (registry s) "RandomNumberV2" = Some rng
              /\ rng <> 0
              /\ ((e = CallFailed /\ getRandomNumber c rng = None)
                  \/ (e = BeaconNotReady
                      /\ exists sec ts, getRandomNumber c rng = Some (0, sec, ts)))))).
Proof.
  unfold storeRandomness, fulfilled, srng.
  destruct (read_bool (userProvidedIdFulfilled s) id); simpl.
  - intros H. injection H as <-. now left.
  - intros H. right. split; [reflexivity|].
    destruct (getContractAddressByName c (registry s) "RandomNumberV2") as [rng|];
      simpl in H.
    + destruct (Z.eqb_spec rng 0) as [Hzero|Hrng]; simpl in H.
      * injection H as <-. right; left. now rewrite Hzero.
      * right; right. exists rng. split; [reflexivity|]. split; [assumption|].
        destruct (getRandomNumber c rng) as [[[v sec] ts]|].
        -- destruct (Z.eqb_spec v 0) as [->|]; simpl in H; [|discriminate].
           injection H as <-. right. split; [reflexivity|]. now exists sec, ts.
        -- injection H as <-. now left.
    + injection H as <-. left. now split.
Qed.

Lemma storeRandomness_failures_witness :
  storeRandomness unresolved_chain deployed 5 = Revert (Error "SRNG not resolved")
  /\ ((Error "SRNG not resolved" = AlreadyFulfilled /\ fulfilled deployed 5 = true)
      \/ fulfilled deployed 5 = false).
Proof.
  split; [reflexivity|].
  destruct (storeRandomness_failures unresolved_chain deployed 5
              (Error "SRNG not resolved")) as [Hful | [Hnot _]].
  - reflexivity.
  - now left.
  - now right.
Defined.

(** X5. Funds leave the contract only through [withdraw] sent by the owner:
    a transaction that lowers the balance is that one, the owner's address
    accepted the transfer, and the balance it leaves is zero. *)
Theorem only_owner_withdraws (s : state) (t : tx) :
  (forall value, tx_call t = Receive value -> 0 <= value) ->
  balance (transact s t) < balance s ->
  tx_call t = Withdraw
  /\ tx_sender t = owner s
  /\ accepts (tx_chain t) (owner s) = true
  /\ balance (transact s t) = 0.
Proof.
  intros Hvalue. unfold transact.
  destruct (exec (tx_chain t) (tx_sender t) s (tx_call t)) as [[[o s'] log]|e] eqn:Hexec;
    [|lia].
  pose proof Hexec as Hcases.
  apply exec_ok_cases in Hcases
    as [(id & ret & _ & Hst) | [(-> & _) | [(Hown & _ & _ & _ & _ & _ & _ & Hcall)
                                           | (v & Hrecv & ->)]]].
  - apply storeRandomness_ok_inv in Hst as (_ & ? & ? & ? & ? & _ & _ & _ & _ & _ & ->).
    simpl. lia.
  - lia.
  - destruct Hcall as [(r & _ & _ & Hbal) | (Hw & _ & Hbal)]; [lia|].
    intros _. rewrite Hw in Hexec. simpl in Hexec. unfold effect, withdraw in Hexec.
    destruct (onlyOwner s (tx_sender t)) as [[]|]; simpl in Hexec; [|discriminate].
    destruct (accepts (tx_chain t) (owner s)); [|discriminate].
    now repeat split.
  - simpl. specialize (Hvalue v Hrecv). lia.
Qed.

Lemma only_owner_withdraws_witness :
  balance (transact (transact deployed (mkTx sample_chain 8 (Receive 40)))
                    (mkTx sample_chain 1 Withdraw)) = 0.
Proof.
  apply (only_owner_withdraws (transact deployed (mkTx sample_chain 8 (Receive 40)))
                              (mkTx sample_chain 1 Withdraw)).
  - intros value Hcall. discriminate.
  - vm_compute. reflexivity.
Defined.

(** What a returning [getRandomPriceVariation] with the flag set went
    through. *)
Lemma getRandomPriceVariation_ok_inv (s : state) (id B P fp vf : Z) :
  getRandomPriceVariation s id B P = Ok (fp, vf, true) ->
  fulfilled s id = true
  /\ variationFactor (read_uint (userProvidedIdToRandomValue s) id) P = Ok vf
  /\ applyVariation B vf = Ok fp.
Proof.
  unfold getRandomPriceVariation, fulfilled.
  destruct (read_bool (userProvidedIdFulfilled s) id); simpl; [|discriminate].
  destruct (variationFactor _ P) as [vf'|]; simpl; [|discriminate].
  destruct (applyVariation B vf') as [fp'|] eqn:Happ; simpl; [|discriminate].
  intros H. injection H as <- <-. now repeat split.
Qed.

(** X6. A price that [getRandomPriceVariation] returns for a fulfilled id
    stays within the band: it differs from the base price B by at most
    B*P/100 (integer division), lies above or at B for a factor >= 0 and
    below or at B otherwise, and is a uint256. *)
Theorem price_within_band (s : state) (id B P fp vf : Z) :
  0 <= B < UINT256_MOD ->
  getRandomPriceVariation s id B P = Ok (fp, vf, true) ->
  B - B * P / 100 <= fp <= B + B * P / 100
  /\ (0 <= vf -> B <= fp)
  /\ (vf < 0 -> fp <= B)
  /\ 0 <= fp < UINT256_MOD.
Proof.
  intros HB Hret. pose proof pow256 as HM. pose proof pow255_pos as HH.
  apply getRandomPriceVariation_ok_inv in Hret as (_ & Hvf & Happ).
  apply variationFactor_ok_inv in Hvf as (HP & _ & Hband).
  rewrite applyVariation_value in Happ by lia.
  destruct (Z.ltb_spec (B * Z.abs vf) UINT256_MOD) as [Hmul|]; [|discriminate].
  simpl in Happ.
  assert (0 <= B * Z.abs vf) as Hnn by (apply Z.mul_nonneg_nonneg; lia).
  assert (B * Z.abs vf / 100 <= B * P / 100) as Hmono.
  { apply Z.div_le_mono; [lia|]. apply Z.mul_le_mono_nonneg_l; lia. }
  assert (0 <= B * Z.abs vf / 100) as Hadj by (apply Z.div_pos; lia).
  rewrite (Z.quot_div_nonneg (B * Z.abs vf)) in Happ by lia.
  destruct (Z.leb_spec 0 vf) as [Hpos|Hneg].
  - rewrite Z.abs_eq in * by lia.
    rewrite Z.quot_div_nonneg in Happ by lia.
    destruct (Z.ltb_spec (B + B * vf / 100) UINT256_MOD); [|discriminate].
    injection Happ as <-. lia.
  - destruct (Z.leb_spec (B * Z.abs vf / 100) B); [|discriminate].
    injection Happ as <-. lia.
Qed.

Lemma price_within_band_witness :
  10000 - 10000 * 10 / 100 <= 10500 <= 10000 + 10000 * 10 / 100.
Proof.
  apply (price_within_band after_store 5 10000 10 10500 5).
  - vm_compute. split; [discriminate | reflexivity].
  - vm_compute. reflexivity.
Defined.

(** X7. The ends of the variationPercent argument, for a fulfilled id and a
    uint256 base price: with 0 the price is returned unchanged with factor
    0; from 2^255 on the call reverts with Panic(0x11), whatever the base
    price and the stored value. *)
Theorem variationPercent_ends (s : state) (id B P : Z) :
  fulfilled s id = true ->
  0 <= B < UINT256_MOD ->
  getRandomPriceVariation s id B 0 = Ok (B, 0, true)
  /\ (2 ^ 255 <= P < UINT256_MOD ->
      getRandomPriceVariation s id B P = Revert OVERFLOW).
Proof.
  intros Hful HB. pose proof pow256 as HM. pose proof pow255_pos as HH.
  unfold getRandomPriceVariation. unfold fulfilled in Hful. rewrite Hful; simpl.
  split.
  - rewrite variationFactor_value by lia. change (2 * 0 + 1) with 1.
    rewrite Z.mod_1_r. simpl.
    rewrite applyVariation_value by lia.
    change (0 - 0) with 0. change (Z.abs 0) with 0. rewrite Z.mul_0_r.
    change (Z.quot 0 100) with 0. rewrite Z.add_0_r. change (0 <=? 0) with true.
    change (0 <? UINT256_MOD) with true. cbn [andb].
    destruct (Z.ltb_spec B UINT256_MOD); [reflexivity | lia].
  - intros HP. rewrite variationFactor_value by lia.
    destruct (Z.ltb_spec (2 * P + 1) UINT256_MOD); [lia | reflexivity].
Qed.

Lemma variationPercent_ends_witness :
  getRandomPriceVariation after_store 5 800 0 = Ok (800, 0, true)
  /\ getRandomPriceVariation after_store 5 800 (2 ^ 255) = Revert OVERFLOW.
Proof.
  destruct (variationPercent_ends after_store 5 800 (2 ^ 255)) as [Hzero Hbig].
  - vm_compute. reflexivity.
  - vm_compute. split; [discriminate | reflexivity].
  - split; [exact Hzero|]. apply Hbig. vm_compute. split; [discriminate | reflexivity].
Defined.

(** X8. The quoted price depends on the stored randomValue only through
    its residue modulo 2P+1: two fulfilled ids, in the same or in different
    storages, whose values agree modulo 2P+1 get the same answer, be it a
    price or a revert. *)
Theorem price_depends_on_residue (s1 s2 : state) (id1 id2 B P : Z) :
  0 <= P < UINT256_MOD ->
  fulfilled s1 id1 = true ->
  fulfilled s2 id2 = true ->
  read_uint (userProvidedIdToRandomValue s1) id1 mod (2 * P + 1)
  = read_uint (userProvidedIdToRandomValue s2) id2 mod (2 * P + 1) ->
  getRandomPriceVariation s1 id1 B P = getRandomPriceVariation s2 id2 B P.
Proof.
  intros HP H1 H2 Hres. unfold getRandomPriceVariation.
  unfold fulfilled in H1, H2. rewrite H1, H2; simpl.
  rewrite !variationFactor_value by assumption. now rewrite Hres.
Qed.

Lemma price_depends_on_residue_witness :
  getRandomPriceVariation after_store 5 10000 20
  = getRandomPriceVariation
      (transact deployed (mkTx later_chain 9 (StoreRandomness 6))) 6 10000 20.
Proof.
  apply price_depends_on_residue.
  - vm_compute. split; [discriminate | reflexivity].
  - vm_compute. reflexivity.
  - vm_compute. reflexivity.
  - vm_compute. reflexivity.
Defined.

(** X9. Every factor of the band occurs: for a bound P below 2^254 and any
    k with -P <= k <= P, the stored value k + P yields exactly the factor
    k. *)
Theorem every_factor_occurs (P k : Z) :
  0 <= P < 2 ^ 254 ->
  - P <= k <= P ->
  variationFactor (k + P) P = Ok k.
Proof.
  intros HP Hk. pose proof pow256 as HM.
  assert (2 ^ 255 = 2 * 2 ^ 254) as H255 by reflexivity.
  rewrite variationFactor_value by lia.
  rewrite (Z.mod_small (k + P)) by lia.
  destruct (Z.ltb_spec (2 * P + 1) UINT256_MOD); [|lia].
  destruct (Z.ltb_spec (k + P) (2 ^ 255)); [|lia].
  simpl. f_equal. lia.
Qed.

Lemma every_factor_occurs_witness : variationFactor (-3 + 10) 10 = Ok (-3).
Proof. apply every_factor_occurs; lia. Defined.

(** X10. The beacon value belongs to the round, not to the request: two
    different ids stored against the same chain, one right after the other,
    receive the same (randomValue, isSecure, timestamp). *)
Theorem same_round_same_value (c : chain) (s s1 : state) (id1 id2 : Z)
        (ret : Z * bool * Z) (log1 : list event) :
  storeRandomness c s id1 = Ok (ret, s1, log1) ->
  id1 <> id2 ->
  fulfilled s id2 = false ->
  exists s2 log2,
    storeRandomness c s1 id2 = Ok (ret, s2, log2)
    /\ stored s2 id2 = stored s2 id1
    /\ stored s2 id1 = ret.
Proof.
  intros Hst Hne Hnot.
  apply storeRandomness_ok_inv in Hst
    as (_ & rng & v & sec & ts & Hrng & Hget & Hv & -> & _ & ->).
  unfold storeRandomness. unfold fulfilled in Hnot. cbn [userProvidedIdFulfilled].
  rewrite read_bool_insert_ne, Hnot by assumption. simpl.
  unfold srng in *. cbn [registry].
  destruct (getContractAddressByName c (registry s) "RandomNumberV2") as [rng'|];
    [|discriminate].
  destruct (negb (rng' =? 0)); simpl in *; [|discriminate].
  injection Hrng as ->. rewrite Hget.
  apply Z.eqb_neq in Hv. rewrite Hv. simpl.
  eexists _, _. split; [reflexivity|].
  unfold stored; simpl.
  repeat first [ rewrite read_uint_insert
               | rewrite read_bool_insert
               | rewrite read_uint_insert_ne by congruence
               | rewrite read_bool_insert_ne by congruence ].
  now split.
Qed.

Lemma same_round_same_value_witness :
  exists s2 log2,
    storeRandomness sample_chain after_store 6 = Ok ((36, true, 1000), s2, log2)
    /\ stored s2 6 = stored s2 5
    /\ stored s2 5 = (36, true, 1000).
Proof.
  apply (same_round_same_value sample_chain deployed after_store 5 6 (36, true, 1000)
                               [RandomnessStored 5 36 true 1000]).
  - vm_compute. reflexivity.
  - discriminate.
  - vm_compute. reflexivity.
Defined.

End RandomizerMore.

(** ** More on the controller: validation and the shape of the mock results *)

Module ControllerMore.
Import Controller ControllerFacts.

Lemma hex_digit_is_hex (x : Q) :
  (0 <= x)%Q -> (x < 1)%Q ->
  exists ch, hex_digit x = String ch "" /\ is_hex_char ch = true.
Proof.
  intros Hlo Hhi. unfold hex_digit.
  assert (0 <= Qfloor (x * 16) < 16) as Hd.
  { destruct x as [n d]. unfold Qle, Qlt in *. simpl in *.
    rewrite Z.mul_1_r in *. rewrite Pos.mul_1_r.
    split.
    - apply Z.div_pos; lia.
    - apply Z.div_lt_upper_bound; lia. }
  assert (exists n, Z.to_nat (Qfloor (x * 16)) = n /\ (n < 16)%nat) as (n & -> & Hn)
      by (eexists; split; [reflexivity | lia]).
  do 16 (destruct n as [|n]; [eexists; split; reflexivity|]). lia.
Qed.

Lemma unit_draws_shift (r : rng) (n : nat) :
  unit_draws r -> unit_draws (fun k => r (n + k)%nat).
Proof. intros Hr k. apply Hr. Qed.

Lemma hex_digits_well_formed (n : nat) (r : rng) :
  unit_draws r ->
  String.length (fst (hex_digits n r)) = n /\ all_hex (fst (hex_digits n r)) = true.
Proof.
  revert r. induction n as [|n IH]; intros r Hr; [now split|].
  simpl. specialize (IH (fun i => r (S i)) (unit_draws_shift r 1 Hr)).
  destruct (hex_digits n (fun i => r (S i))) as [rest r2]. simpl in *.
  destruct (hex_digit_is_hex (r 0%nat)) as (ch & -> & Hch); try apply Hr.
  destruct IH as [Hlen Hall].
  change (String ch "" ++ rest) with (String ch rest). split.
  - cbn. now rewrite Hlen.
  - cbn. now rewrite Hch, Hall.
Qed.

Lemma hex_of_draws (n : nat) (r : rng) :
  unit_draws r -> is_hex_of_length n ("0x" ++ fst (hex_digits n r)).
Proof.
  intros Hr. exists (fst (hex_digits n r)).
  split; [reflexivity | now apply hex_digits_well_formed].
Qed.

Lemma destructure_some (body : jsval) (name name' : string) (v : jsval) :
  destructure body name = Some v -> exists v', destructure body name' = Some v'.
Proof.
  destruct body; simpl; try discriminate; intros _; eexists; reflexivity.
Qed.

(** The answer to a purchase that passes validation, from the draws. *)
Lemma purchaseData_mock (body : jsval) (r : rng) :
  present body "dataType" = true ->
  present body "startDate" = true ->
  present body "endDate" = true ->
  fst (purchaseData body r) =
  mkPurchaseResponse 200
    (PurchaseResult true
       ("0x" ++ fst (hex_digits 64 r))
       ("0x" ++ fst (hex_digits 64 (fun k => r (64 + k)%nat)))
       ("0x" ++ fst (hex_digits 64 (fun k => r (128 + k)%nat)))
       "Data purchase request submitted successfully")
  /\ forall k, snd (purchaseData body r) k = r (192 + k)%nat.
Proof.
  unfold present, purchaseData. intros Hd Hs He.
  destruct (destructure body "dataType") as [dataType|]; [|discriminate].
  destruct (destructure body "startDate") as [startDate|]; [|discriminate].
  destruct (destructure body "endDate") as [endDate|]; [|discriminate].
  rewrite Hd, Hs, He. cbn [negb orb].
  destruct (hex_digits 64 r) as [id r1] eqn:Hid.
  destruct (hex_digits 64 r1) as [txh r2] eqn:Htx.
  destruct (hex_digits 64 r2) as [att r3] eqn:Hatt.
  assert (forall k, r1 k = r (64 + k)%nat) as Hr1.
  { intros k. change r1 with (snd (id, r1)). rewrite <- Hid. apply hex_digits_rest. }
  assert (forall k, r2 k = r (128 + k)%nat) as Hr2.
  { intros k. change r2 with (snd (txh, r2)). rewrite <- Htx.
    rewrite hex_digits_rest, Hr1. reflexivity. }
  cbn [fst snd]. split.
  - do 2 f_equal.
    + f_equal. change txh with (fst (txh, r2)). rewrite <- Htx.
      apply hex_digits_ext. intros k _. apply Hr1.
    + f_equal. change att with (fst (att, r3)). rewrite <- Hatt.
      apply hex_digits_ext. intros k _. apply Hr2.
  - intros k. change r3 with (snd (att, r3)). rewrite <- Hatt.
    rewrite hex_digits_rest, Hr2. reflexivity.
Qed.

(** X11. Validation in POST /purchase: a body that is undefined or null
    gives 500; a missing or falsy dataType gives the 400 for dataType, also
    when the dates are missing too; otherwise a missing or falsy startDate
    or endDate gives the 400 for the dates. None of these calls
    [Math.random]. A request with all three gets 200 after exactly 192
    draws. *)
Theorem purchaseData_validation (body : jsval) (r : rng) :
  (destructure body "dataType" = None ->
   purchaseData body r
   = (mkPurchaseResponse 500 (PurchaseError "Failed to purchase data"), r))
  /\ (destructure body "dataType" <> None -> present body "dataType" = false ->
      purchaseData body r
      = (mkPurchaseResponse 400 (PurchaseError "Missing required parameter: dataType"), r))
  /\ (present body "dataType" = true ->
      present body "startDate" && present body "endDate" = false ->
      purchaseData body r
      = (mkPurchaseResponse 400
           (PurchaseError "Missing required parameters: startDate or endDate"), r))
  /\ (present body "dataType" = true -> present body "startDate" = true ->
      present body "endDate" = true ->
      purchase_statusCode (fst (purchaseData body r)) = 200
      /\ forall k, snd (purchaseData body r) k = r (192 + k)%nat).
Proof.
  split; [|split; [|split]].
  - unfold purchaseData. now intros ->.
  - unfold present, purchaseData. intros Hsome.
    destruct (destructure body "dataType") as [dataType|] eqn:Hd; [|congruence].
    destruct (destructure_some body "dataType" "startDate" dataType Hd) as [startDate ->].
    destruct (destructure_some body "dataType" "endDate" dataType Hd) as [endDate ->].
    now intros ->.
  - unfold present, purchaseData.
    destruct (destructure body "dataType") as [dataType|] eqn:Hd; [|discriminate].
    destruct (destructure_some body "dataType" "startDate" dataType Hd) as [startDate ->].
    destruct (destructure_some body "dataType" "endDate" dataType Hd) as [endDate ->].
    intros -> Hdates. cbn [negb].
    now destruct (truthy startDate), (truthy endDate).
  - intros Hd Hs He. destruct (purchaseData_mock body r Hd Hs He) as [Hfst Hsnd].
    split; [now rewrite Hfst | exact Hsnd].
Qed.

Lemma purchaseData_validation_witness :
  purchaseData (JObject [("price", JNumber (5 # 1))]) draws_high_then_low
  = (mkPurchaseResponse 400 (PurchaseError "Missing required parameter: dataType"),
     draws_high_then_low)
  /\ purchase_statusCode (fst (purchaseData sample_purchase draws_high_then_low)) = 200.
Proof.
  split.
  - apply (proj1 (proj2 (purchaseData_validation (JObject [("price", JNumber (5 # 1))])
                           draws_high_then_low))); [discriminate | reflexivity].
  - apply (proj2 (proj2 (proj2 (purchaseData_validation sample_purchase
                                  draws_high_then_low)))); reflexivity.
Defined.



Lemma draws_high_then_low_unit : unit_draws draws_high_then_low.
Proof.
  intros k. unfold draws_high_then_low. destruct (k <? 194)%nat; now split.
Qed.

Lemma draws_for_unit (verified status : bool) : unit_draws (draws_for verified status).
Proof.
  intros [|k]; simpl; [destruct verified | destruct status]; now split.
Qed.


(** X13. Whatever the draws, a 200 answer of POST /verify has status
    "verified" or "pending", a well-formed 32-byte hex attestationResponse
    and a well-formed 64-byte hex proof. *)
Theorem verifyAttestation_well_formed (body : jsval) (r : rng) :
  unit_draws r ->
  has_requestId body = true ->
  exists verified status attestationResponse proof,
    fst (verifyAttestation body r)
    = mkResponse 200 (MockResult verified status "Attestation verification result"
                                 attestationResponse proof)
    /\ (status = "verified" \/ status = "pending")
    /\ is_hex_of_length 64 attestationResponse
    /\ is_hex_of_length 128 proof.
Proof.
  intros Hr Hid. rewrite (verifyAttestation_mock body r Hid).
  eexists _, _, _, _. split; [reflexivity|]. split.
  - destruct (negb (Qle_bool (r 1%nat) (1 # 2))); [now left | now right].
  - split; apply hex_of_draws; now apply unit_draws_shift.
Qed.

Lemma verifyAttestation_well_formed_witness :
  exists verified status attestationResponse proof,
    fst (verifyAttestation sample_request draws_high_then_low)
    = mkResponse 200 (MockResult verified status "Attestation verification result"
                                 attestationResponse proof)
    /\ (status = "verified" \/ status = "pending")
    /\ is_hex_of_length 64 attestationResponse
    /\ is_hex_of_length 128 proof.
Proof.
  apply (verifyAttestation_well_formed sample_request draws_high_then_low
           draws_high_then_low_unit).
  reflexivity.
Defined.

(** X14. In the answer of POST /verify the flag [verified] and the string
    [status] come from two separate draws: for any request with a requestId
    and any choice of the two there are draws that produce it, so an answer
    with verified = false and status "verified" occurs, and so does one with
    verified = true and status "pending". *)
Theorem verified_and_status_are_independent (body : jsval) (verified status : bool) :
  has_requestId body = true ->
  unit_draws (draws_for verified status)
  /\ exists attestationResponse proof,
      fst (verifyAttestation body (draws_for verified status))
      = mkResponse 200
          (MockResult verified (if status then "verified" else "pending")
                      "Attestation verification result" attestationResponse proof).
Proof.
  intros Hid. split; [apply draws_for_unit|].
  rewrite (verifyAttestation_mock body _ Hid).
  eexists _, _. do 2 f_equal.
  - now destruct verified.
  - now destruct status.
Qed.

Lemma verified_and_status_are_independent_witness :
  exists attestationResponse proof,
    fst (verifyAttestation sample_request (draws_for false true))
    = mkResponse 200
        (MockResult false "verified" "Attestation verification result"
                    attestationResponse proof).
Proof.
  apply (verified_and_status_are_independent sample_request false true).
  reflexivity.
Defined.

End ControllerMore.

(** ** Request ids and the purchase cache of the web app *)

Module FlareVrfFacts.
Import Controller ControllerFacts FlareVrf.

Lemma append_cons (ch : ascii) (s t : string) : String ch s ++ t = String ch (s ++ t).
Proof. reflexivity. Qed.

Lemma append_empty (t : string) : "" ++ t = t.
Proof. reflexivity. Qed.

Lemma append_assoc (s t u : string) : (s ++ t) ++ u = s ++ (t ++ u).
Proof.
  induction s as [|ch s IH]; [reflexivity|].
  now rewrite !append_cons, IH.
Qed.

Lemma length_append (s t : string) :
  String.length (s ++ t) = (String.length s + String.length t)%nat.
Proof.
  induction s as [|ch s IH]; [reflexivity|].
  rewrite append_cons. cbn [String.length]. now rewrite IH.
Qed.

Lemma all_hex_append (s t : string) : all_hex (s ++ t) = all_hex s && all_hex t.
Proof.
  induction s as [|ch s IH]; [reflexivity|].
  rewrite append_cons. cbn [all_hex]. now rewrite IH, andb_assoc.
Qed.

Lemma replicate_add (n m : nat) (ch : ascii) :
  replicate (n + m) ch = replicate n ch ++ replicate m ch.
Proof.
  induction n as [|n IH]; [reflexivity|].
  cbn [Nat.add replicate]. now rewrite append_cons, IH.
Qed.

Lemma length_replicate (n : nat) (ch : ascii) : String.length (replicate n ch) = n.
Proof. induction n as [|n IH]; [reflexivity|]. cbn. now rewrite IH. Qed.

Lemma all_hex_zeros (n : nat) : all_hex (replicate n "0"%char) = true.
Proof. induction n as [|n IH]; [reflexivity|]. cbn [replicate all_hex]. now rewrite IH. Qed.

(** *** Signed 32-bit wrap-around *)

Lemma toInt32_range (z : Z) : - 2 ^ 31 <= toInt32 z < 2 ^ 31.
Proof.
  unfold toInt32. pose proof (Z.mod_pos_bound (z + 2 ^ 31) (2 ^ 32)).
  assert (2 ^ 32 = 2 * 2 ^ 31) by reflexivity. assert (0 < 2 ^ 31) by reflexivity. lia.
Qed.

Lemma toInt32_congr (a b : Z) : a mod 2 ^ 32 = b mod 2 ^ 32 -> toInt32 a = toInt32 b.
Proof.
  intros Hab. unfold toInt32.
  now rewrite (Z.add_mod a), Hab, <- (Z.add_mod b) by discriminate.
Qed.

Lemma toInt32_mod (a : Z) : toInt32 a mod 2 ^ 32 = a mod 2 ^ 32.
Proof.
  unfold toInt32.
  rewrite <- Zminus_mod_idemp_l, Z.mod_mod by discriminate.
  rewrite Zminus_mod_idemp_l. f_equal. lia.
Qed.

Lemma toInt32_small (z : Z) : - 2 ^ 31 <= z < 2 ^ 31 -> toInt32 z = z.
Proof.
  intros Hz. unfold toInt32.
  assert (2 ^ 32 = 2 * 2 ^ 31) as H32 by reflexivity.
  rewrite Z.mod_small by lia. lia.
Qed.

(** One turn of the loop multiplies by 31, adds the code unit and wraps. *)
Lemma hash_step_31 (hash char : Z) : hash_step hash char = toInt32 (31 * hash + char).
Proof.
  unfold hash_step, bitand, shl5.
  rewrite Z.land_diag, (toInt32_small (toInt32 _)) by apply toInt32_range.
  apply toInt32_congr.
  rewrite Z.shiftl_mul_pow2 by lia.
  rewrite <- Z.add_mod_idemp_l, <- Zminus_mod_idemp_l by discriminate.
  rewrite toInt32_mod.
  rewrite <- Z.mul_mod_idemp_l, toInt32_mod, Z.mul_mod_idemp_l by discriminate.
  rewrite Zminus_mod_idemp_l, Z.add_mod_idemp_l by discriminate.
  f_equal. lia.
Qed.

Lemma hashCode_snoc (s : list Z) (char : Z) :
  hashCode (s ++ [char]) = toInt32 (31 * hashCode s + char).
Proof.
  unfold hashCode. rewrite fold_left_app. simpl. apply hash_step_31.
Qed.

Lemma hashCode_base31 (s : list Z) : hashCode s = toInt32 (base31 s).
Proof.
  induction s as [|char s IH] using rev_ind; [reflexivity|].
  rewrite hashCode_snoc, IH. unfold base31. rewrite fold_left_app. simpl.
  apply toInt32_congr.
  rewrite <- Z.add_mod_idemp_l, <- Z.mul_mod_idemp_r, toInt32_mod by discriminate.
  now rewrite Z.mul_mod_idemp_r, Z.add_mod_idemp_l by discriminate.
Qed.

(** X15. The hash behind [generateRequestId] is the polynomial hash in base
    31 of the code units, wrapped to a signed 32-bit integer: the shift and
    subtract of the loop is a multiplication by 31 modulo 2^32, and the
    result always lies in [-2^31, 2^31). *)
Theorem hashCode_is_base31_wrapped (paramsString : list Z) :
  hashCode paramsString = toInt32 (base31 paramsString)
  /\ hashCode paramsString mod 2 ^ 32 = base31 paramsString mod 2 ^ 32
  /\ - 2 ^ 31 <= hashCode paramsString < 2 ^ 31.
Proof.
  rewrite hashCode_base31. split; [reflexivity|]. split.
  - apply toInt32_mod.
  - apply toInt32_range.
Qed.


(** *** Printing in base 16 *)

Lemma hex_char_spec (d : Z) :
  0 <= d < 16 ->
  exists ch, hex_char d = String ch "" /\ is_hex_char ch = true /\ hex_digit_value ch = d.
Proof.
  intros Hd. unfold hex_char.
  assert (exists n, Z.to_nat d = n /\ (n < 16)%nat /\ d = Z.of_nat n) as (n & -> & Hn & ->)
      by (exists (Z.to_nat d); lia).
  do 16 (destruct n as [|n]; [eexists; repeat split; reflexivity|]). lia.
Qed.

Lemma hex_value_from_append (acc : Z) (s t : string) :
  hex_value_from acc (s ++ t) = hex_value_from (hex_value_from acc s) t.
Proof.
  revert acc. induction s as [|ch s IH]; intros acc; [reflexivity|].
  rewrite append_cons. cbn [hex_value_from]. apply IH.
Qed.

Lemma hex_value_from_zeros (n : nat) (s : string) :
  hex_value_from 0 (replicate n "0"%char ++ s) = hex_value_from 0 s.
Proof.
  induction n as [|n IH]; [reflexivity|].
  cbn [replicate]. rewrite append_cons. cbn [hex_value_from]. exact IH.
Qed.

(** With enough fuel the digits printed for [n] read back as [n], are
    hexadecimal, and are at most [k] when [n < 16^k]. *)
Lemma toString16_fuel_S (fuel : nat) (n : Z) :
  toString16_fuel (S fuel) n
  = if n <? 16 then hex_char n
    else toString16_fuel fuel (n / 16) ++ hex_char (n mod 16).
Proof. reflexivity. Qed.

Lemma toString16_fuel_spec (fuel : nat) (n : Z) :
  0 <= n < 2 ^ Z.of_nat (S fuel) ->
  hex_value_from 0 (toString16_fuel (S fuel) n) = n
  /\ all_hex (toString16_fuel (S fuel) n) = true
  /\ (1 <= String.length (toString16_fuel (S fuel) n))%nat
  /\ forall k, n < 16 ^ Z.of_nat (S k) ->
               (String.length (toString16_fuel (S fuel) n) <= S k)%nat.
Proof.
  revert n. induction fuel as [|fuel IH]; intros n Hn;
    rewrite toString16_fuel_S; destruct (Z.ltb_spec n 16) as [Hsmall|Hbig].
  - destruct (hex_char_spec n) as (ch & -> & Hch & Hval); [lia|].
    cbn. rewrite Hch, Hval. repeat split; try lia; intros k _; lia.
  - change (2 ^ Z.of_nat 1) with 2 in Hn. lia.
  - destruct (hex_char_spec n) as (ch & -> & Hch & Hval); [lia|].
    cbn. rewrite Hch, Hval. repeat split; try lia; intros k _; lia.
  - assert (0 <= n / 16 < 2 ^ Z.of_nat (S fuel)) as Hrec.
    { split; [apply Z.div_pos; lia|].
      apply Z.div_lt_upper_bound; [lia|].
      rewrite (Nat2Z.inj_succ (S fuel)), Z.pow_succ_r in Hn by lia.
      assert (0 < 2 ^ Z.of_nat (S fuel)) by (apply Z.pow_pos_nonneg; lia). lia. }
    destruct (IH (n / 16) Hrec) as (Hval & Hhex & Hpos & Hlen).
    destruct (hex_char_spec (n mod 16)) as (ch & -> & Hch & Hdig);
      [apply Z.mod_pos_bound; lia|].
    rewrite hex_value_from_append, Hval, all_hex_append, Hhex, length_append.
    cbn [hex_value_from all_hex String.length andb]. rewrite Hch, Hdig.
    repeat split; try lia.
    + pose proof (Z.div_mod n 16 ltac:(lia)). lia.
    + intros [|k] Hk; [change (16 ^ Z.of_nat 1) with 16 in Hk; lia|].
      assert (n / 16 < 16 ^ Z.of_nat (S k)) as Hq.
      { apply Z.div_lt_upper_bound; [lia|].
        rewrite (Nat2Z.inj_succ (S k)), Z.pow_succ_r in Hk by lia. lia. }
      specialize (Hlen k Hq). lia.
Qed.

Lemma toString16_spec (n : Z) :
  0 <= n ->
  hex_value_from 0 (toString16 n) = n
  /\ all_hex (toString16 n) = true
  /\ (1 <= String.length (toString16 n))%nat
  /\ forall k, n < 16 ^ Z.of_nat (S k) -> (String.length (toString16 n) <= S k)%nat.
Proof.
  intros Hn. apply toString16_fuel_spec. split; [assumption|].
  rewrite Nat2Z.inj_succ, Z2Nat.id by apply Z.log2_nonneg.
  destruct (Z.eq_dec n 0) as [->|Hnz]; [reflexivity|].
  apply Z.log2_spec. lia.
Qed.

Lemma abs_hashCode_bound (s : list Z) : 0 <= Z.abs (hashCode s) <= 2 ^ 31.
Proof. pose proof (toInt32_range (base31 s)). rewrite hashCode_base31. lia. Qed.

(** X16. Every request id is "0x", fifty-six zeros and eight hexadecimal
    digits, 66 characters in all: of the 32 bytes of the id only the last
    four ever carry information. *)
Theorem generateRequestId_format (paramsString : list Z) :
  exists tail,
    generateRequestId paramsString = "0x" ++ replicate 56 "0"%char ++ tail
    /\ String.length tail = 8%nat
    /\ all_hex tail = true
    /\ String.length (generateRequestId paramsString) = 66%nat.
Proof.
  unfold generateRequestId, padStart.
  destruct (toString16_spec (Z.abs (hashCode paramsString))) as (_ & Hhex & Hpos & Hlen);
    [apply Z.abs_nonneg|].
  specialize (Hlen 7%nat).
  assert (String.length (toString16 (Z.abs (hashCode paramsString))) <= 8)%nat as Hle.
  { apply Hlen. pose proof (abs_hashCode_bound paramsString).
    change (16 ^ Z.of_nat 8) with (2 * 2 ^ 31). lia. }
  set (digits := toString16 (Z.abs (hashCode paramsString))) in *.
  exists (replicate (8 - String.length digits) "0"%char ++ digits).
  replace (64 - String.length digits)%nat
    with (56 + (8 - String.length digits))%nat by lia.
  rewrite replicate_add, append_assoc.
  split; [reflexivity|].
  rewrite !append_cons, append_empty. cbn [String.length].
  rewrite !length_append, !length_replicate, all_hex_append, all_hex_zeros, Hhex.
  repeat split; lia.
Qed.

(** X17. Read as a number, the request id is the absolute value of the
    hash: at most 2^31, so there are no more than 2^31 + 1 different ids,
    and two parameter strings whose hashes are equal or opposite get the
    same id. *)
Theorem generateRequestId_value (paramsString : list Z) :
  hex_value (generateRequestId paramsString) = Z.abs (hashCode paramsString)
  /\ 0 <= hex_value (generateRequestId paramsString) <= 2 ^ 31
  /\ forall other,
       Z.abs (hashCode other) = Z.abs (hashCode paramsString) ->
       generateRequestId other = generateRequestId paramsString.
Proof.
  assert (hex_value (generateRequestId paramsString) = Z.abs (hashCode paramsString))
    as Hval.
  { unfold generateRequestId, padStart, hex_value.
    rewrite !append_cons, append_empty, hex_value_from_zeros.
    apply toString16_spec, Z.abs_nonneg. }
  split; [exact Hval|]. split.
  - rewrite Hval. apply abs_hashCode_bound.
  - intros other Hsame. unfold generateRequestId. now rewrite Hsame.
Qed.

Lemma generateRequestId_value_witness :
  generateRequestId quoted_Aa = generateRequestId quoted_BB.
Proof.
  apply (proj2 (proj2 (generateRequestId_value quoted_BB))).
  vm_compute. reflexivity.
Defined.

(** X18. Collisions are built in: whatever comes before and after, the
    parameter strings that differ only in "Aa" against "BB" get the same
    request id. *)
Theorem generateRequestId_collides (before after : list Z) :
  generateRequestId (before ++ [65; 97] ++ after)
  = generateRequestId (before ++ [66; 66] ++ after).
Proof.
  unfold generateRequestId. do 4 f_equal.
  unfold hashCode. rewrite !fold_left_app. f_equal.
  cbn [fold_left]. rewrite !hash_step_31.
  apply toInt32_congr.
  rewrite <- (Z.add_mod_idemp_l (31 * toInt32 (_ + 65))) by discriminate.
  rewrite <- (Z.add_mod_idemp_l (31 * toInt32 (_ + 66))) by discriminate.
  rewrite <- !(Z.mul_mod_idemp_r 31 (toInt32 _)), !toInt32_mod by discriminate.
  rewrite !Z.mul_mod_idemp_r, !Z.add_mod_idemp_l by discriminate.
  f_equal. lia.
Qed.

(** *** The purchase cache *)

Lemma useFallbackData_result (p : list Z) (st : service) (r : rng) :
  fst (fst (useFallbackData p st r))
  = mkFdcResult (generateRequestId p) (Some ("0x" ++ fst (hex_digits 64 r)))
                "completed" true
  /\ fdcCache (snd (fst (useFallbackData p st r)))
     = <[generateRequestId p := fst (fst (useFallbackData p st r))]> (fdcCache st)
  /\ isInitialized (snd (fst (useFallbackData p st r))) = isInitialized st
  /\ forall k, snd (useFallbackData p st r) k = r (64 + k)%nat.
Proof.
  unfold useFallbackData.
  pose proof (hex_digits_rest 64 r) as Hrest.
  destruct (hex_digits 64 r) as [digits r']. now repeat split.
Qed.

Lemma initialize_cache (st : service) (w : world) :
  fdcCache (snd (initialize st w)) = fdcCache st
  /\ (isInitialized st = true -> isInitialized (snd (initialize st w)) = true)
  /\ (fst (initialize st w) = true -> isInitialized (snd (initialize st w)) = true).
Proof.
  unfold initialize.
  destruct (isInitialized st) eqn:Hinit; [now repeat split|].
  destruct (isConnecting st); [now repeat split|].
  destruct (connect w); now repeat split.
Qed.

(** Every path of [purchaseData] ends with its result in the cache under
    the request id, and touches no other entry. *)
Lemma purchaseData_cache (p : list Z) (st : service) (w : world) (r : rng) :
  fdcCache (snd (fst (purchaseData p st w r))) !! generateRequestId p
  = Some (fst (fst (purchaseData p st w r)))
  /\ (forall k v, fdcCache st !! k = Some v ->
                  fdcCache (snd (fst (purchaseData p st w r))) !! k = Some v)
  /\ (isInitialized st = true ->
      isInitialized (snd (fst (purchaseData p st w r))) = true).
Proof.
  unfold purchaseData.
  destruct (fdcCache st !! generateRequestId p) as [cached|] eqn:Hhit;
    [now repeat split|].
  assert (forall st1, fdcCache st1 = fdcCache st ->
            (isInitialized st = true -> isInitialized st1 = true) ->
            fdcCache (snd (fst (useFallbackData p st1 r))) !! generateRequestId p
            = Some (fst (fst (useFallbackData p st1 r)))
            /\ (forall k v, fdcCache st !! k = Some v ->
                   fdcCache (snd (fst (useFallbackData p st1 r))) !! k = Some v)
            /\ (isInitialized st = true ->
                isInitialized (snd (fst (useFallbackData p st1 r))) = true))
    as Hfallback.
  { intros st1 Hcache Hinit.
    destruct (useFallbackData_result p st1 r) as (_ & -> & -> & _).
    rewrite lookup_insert_eq, Hcache. repeat split; try assumption.
    intros k v Hk. rewrite lookup_insert_ne; [assumption | congruence]. }
  assert (forall st1 txHash, fdcCache st1 = fdcCache st ->
            (isInitialized st = true -> isInitialized st1 = true) ->
            let result := mkFdcResult (generateRequestId p) txHash "pending" false in
            <[generateRequestId p := result]> (fdcCache st1) !! generateRequestId p
            = Some result
            /\ (forall k v, fdcCache st !! k = Some v ->
                   <[generateRequestId p := result]> (fdcCache st1) !! k = Some v)
            /\ (isInitialized st = true -> isInitialized st1 = true))
    as Hpending.
  { intros st1 txHash Hcache Hinit result. rewrite lookup_insert_eq, Hcache.
    repeat split; try assumption.
    intros k v Hk. rewrite lookup_insert_ne; [assumption | congruence]. }
  destruct (initialize_cache st w) as (Hcache & Hinit & _).
  destruct (negb (isInitialized st)).
  - destruct (initialize st w) as [success st1]; cbn [fst snd] in *.
    destruct success; cbn [negb]; [|now apply Hfallback].
    destruct (purchase w) as [txHash|]; [|now apply Hfallback].
    cbn [fst snd fdcCache isInitialized]. now apply Hpending.
  - cbn [negb]. destruct (purchase w) as [txHash|]; [|now apply Hfallback].
    cbn [fst snd fdcCache isInitialized]. now apply Hpending.
Qed.




(** X20. A purchase that cannot be made is reported as made: on a cache
    miss, when the wallet does not connect or the purchase throws, the
    result has status "completed", [isFallback] set and a transaction hash
    that is just 64 draws of [Math.random], and it is cached like a real
    one. *)
Theorem purchaseData_falls_back (p : list Z) (st : service) (w : world) (r : rng) :
  fdcCache st !! generateRequestId p = None ->
  (isInitialized st = false /\ (isConnecting st = true \/ connect w <> None))
  \/ purchase w = None ->
  fst (fst (purchaseData p st w r))
  = mkFdcResult (generateRequestId p) (Some ("0x" ++ fst (hex_digits 64 r)))
                "completed" true
  /\ fdcCache (snd (fst (purchaseData p st w r))) !! generateRequestId p
     = Some (fst (fst (purchaseData p st w r)))
  /\ forall k, snd (purchaseData p st w r) k = r (64 + k)%nat.
Proof.
  intros Hmiss Hdown.
  destruct (purchaseData_cache p st w r) as (Hhit & _).
  split; [|split; [exact Hhit|]]; clear Hhit;
    unfold purchaseData; rewrite Hmiss; unfold initialize;
    destruct Hdown as [(-> & [-> | Hconn]) | ->]; cbn [negb].
  all: try (destruct (isInitialized st); cbn [negb]).
  all: try (destruct (isConnecting st); cbn [negb]).
  all: try (destruct (connect w); [|congruence]; cbn [negb]).
  all: try (destruct (connect w); cbn [negb]).
  all: try (destruct (purchase w); cbn [negb]).
  all: try apply useFallbackData_result.
Qed.

Lemma purchaseData_falls_back_witness :
  res_status (fst (fst (purchaseData quoted_Aa initial_service no_wallet
                          draws_high_then_low)))
  = "completed".
Proof.
  rewrite (proj1 (purchaseData_falls_back quoted_Aa initial_service no_wallet
                    draws_high_then_low eq_refl
                    (or_intror eq_refl))).
  reflexivity.
Defined.

(** *** Calls that overlap *)

Lemma start_keeps (t : task) (st : service) :
  fdcCache (snd (start t st)) = fdcCache st
  /\ (isInitialized st = true -> isInitialized (snd (start t st)) = true).
Proof.
  unfold start, begin_initialize. destruct t as [|p].
  - destruct (isInitialized st) eqn:Hinit; [now split|].
    destruct (isConnecting st); now split.
  - destruct (fdcCache st !! generateRequestId p); [now split|].
    destruct (isInitialized st) eqn:Hinit; cbn [negb]; [now split|].
    destruct (isConnecting st); now split.
Qed.

(** What a turn of a call does to the cache: nothing, or it files a result
    for the call's own request id under that id. *)
Lemma resume_cache (t : task) (ph : phase) (st : service) (w : world) (r : rng) :
  (fdcCache (snd (fst (resume t ph st w r))) = fdcCache st
   \/ exists p result,
        t = PurchaseData p
        /\ res_requestId result = generateRequestId p
        /\ fdcCache (snd (fst (resume t ph st w r)))
           = <[generateRequestId p := result]> (fdcCache st))
  /\ (isInitialized st = true ->
      isInitialized (snd (fst (resume t ph st w r))) = true).
Proof.
  assert (forall p,
            exists result,
              res_requestId result = generateRequestId p
              /\ fdcCache (snd (fst (useFallbackData p st r)))
                 = <[generateRequestId p := result]> (fdcCache st))
    as Hfallback.
  { intros p. destruct (useFallbackData_result p st r) as (Hres & Hcache & _).
    exists (fst (fst (useFallbackData p st r))). split; [now rewrite Hres | exact Hcache]. }
  assert (forall p, isInitialized (snd (fst (useFallbackData p st r))) = isInitialized st)
    as Hflag by (intros p; apply (useFallbackData_result p st r)).
  unfold resume, end_initialize.
  destruct ph as [|[|]| |result], t as [|p]; cbn [fst snd];
    try (split; [now left | tauto]).
  - destruct (connect w); cbn; split; auto.
  - destruct (connect w); cbn; split; auto.
  - specialize (Hfallback p). specialize (Hflag p).
    destruct (useFallbackData p st r) as [[result st'] r']. cbn [fst snd] in *.
    split; [right | now rewrite Hflag].
    destruct Hfallback as (res & Hres & Hcache). now exists p, res.
  - destruct (purchase w) as [txHash|].
    + cbn [fst snd fdcCache isInitialized]. split; [right | tauto].
      now eexists p, _.
    + specialize (Hfallback p). specialize (Hflag p).
      destruct (useFallbackData p st r) as [[result st'] r']. cbn [fst snd] in *.
      split; [right | now rewrite Hflag].
      destruct Hfallback as (res & Hres & Hcache). now exists p, res.
Qed.

Lemma step_keeps (sys : system) (a : action) :
  (forall k e, fdcCache (shared sys) !! k = Some e -> res_requestId e = k) ->
  (forall k e, fdcCache (shared (step sys a)) !! k = Some e -> res_requestId e = k)
  /\ (is_clear a = false ->
      (forall k e, fdcCache (shared sys) !! k = Some e ->
                   exists e', fdcCache (shared (step sys a)) !! k = Some e')
      /\ (isInitialized (shared sys) = true ->
          isInitialized (shared (step sys a)) = true)).
Proof.
  intros Hfiled. destruct a as [t|i w|]; cbn [step is_clear].
  - destruct (start_keeps t (shared sys)) as [Hcache Hflag].
    destruct (start t (shared sys)) as [ph st]. cbn [fst snd shared] in *.
    rewrite Hcache. split; [exact Hfiled|]. intros _. split; [eauto | exact Hflag].
  - destruct (calls sys !! i) as [[t ph]|]; [|split; [exact Hfiled | eauto]].
    destruct (resume_cache t ph (shared sys) w (stream sys)) as [Hcache Hflag].
    destruct (resume t ph (shared sys) w (stream sys)) as [[ph' st'] r'].
    cbn [fst snd shared] in *.
    destruct Hcache as [-> | (p & result & _ & Hres & ->)].
    + split; [exact Hfiled|]. intros _. split; [eauto | exact Hflag].
    + split.
      * intros k e. destruct (decide (generateRequestId p = k)) as [<-|Hne].
        -- rewrite lookup_insert_eq. intros [= <-]. exact Hres.
        -- rewrite lookup_insert_ne by assumption. apply Hfiled.
      * intros _. split; [|exact Hflag].
        intros k e Hk. destruct (decide (generateRequestId p = k)) as [<-|Hne].
        -- rewrite lookup_insert_eq. eauto.
        -- rewrite lookup_insert_ne by assumption. eauto.
  - split; [|discriminate]. intros k e. cbn. now rewrite lookup_empty.
Qed.

(** X21. Through any interleaving of calls of [initialize] and
    [purchaseData], a request id that is cached stays cached as long as
    [clearCache] is not called (the result filed under it may be replaced,
    see X22), and the service, once initialised, stays initialised; and
    whatever is called, every result in the cache is filed under its own
    request id. *)
Theorem cached_ids_stay_cached (actions : list action) (sys : system) :
  (forall k e, fdcCache (shared sys) !! k = Some e -> res_requestId e = k) ->
  (forall k e, fdcCache (shared (run_system actions sys)) !! k = Some e ->
               res_requestId e = k)
  /\ (forallb (fun a => negb (is_clear a)) actions = true ->
      (forall k e, fdcCache (shared sys) !! k = Some e ->
                   exists e', fdcCache (shared (run_system actions sys)) !! k = Some e')
      /\ (isInitialized (shared sys) = true ->
          isInitialized (shared (run_system actions sys)) = true)).
Proof.
  revert sys. induction actions as [|a actions IH]; intros sys Hfiled.
  - split; [exact Hfiled|]. intros _. split; eauto.
  - cbn [run_system fold_left forallb].
    destruct (step_keeps sys a Hfiled) as [Hfiled' Hkeep].
    destruct (IH (step sys a) Hfiled') as [Hfinal Hrest].
    split; [exact Hfinal|].
    intros Hall. apply andb_true_iff in Hall as [Ha Hall].
    apply negb_true_iff in Ha.
    destruct (Hkeep Ha) as [Hkey Hflag]. destruct (Hrest Hall) as [Hkey' Hflag'].
    split.
    + intros k e Hk. destruct (Hkey k e Hk) as [e' He']. now apply (Hkey' k e').
    + intros Hinit. now apply Hflag', Hflag.
Qed.

Lemma cached_ids_stay_cached_witness :
  exists e',
    fdcCache
      (shared (run_system (skipn 3 (overlapping quoted_Aa good_wallet))
                 (run_system (firstn 3 (overlapping quoted_Aa good_wallet))
                    (mkSystem initial_service draws_high_then_low []))))
    !! generateRequestId quoted_Aa = Some e'.
Proof.
  destruct (cached_ids_stay_cached
              (firstn 3 (overlapping quoted_Aa good_wallet))
              (mkSystem initial_service draws_high_then_low []))
    as [Hfiled _].
  - intros k e. unfold initial_service. cbn [shared fdcCache].
    now rewrite lookup_empty.
  - destruct (cached_ids_stay_cached
                (skipn 3 (overlapping quoted_Aa good_wallet))
                (run_system (firstn 3 (overlapping quoted_Aa good_wallet))
                   (mkSystem initial_service draws_high_then_low []))
                Hfiled)
      as [_ Hkeep].
    destruct Hkeep as [Hkey _]; [reflexivity|].
    eapply Hkey. vm_compute. reflexivity.
Defined.

Lemma useFallbackData_eq (p : list Z) (st : service) (r : rng) :
  useFallbackData p st r
  = (mkFdcResult (generateRequestId p) (Some ("0x" ++ fst (hex_digits 64 r)))
                 "completed" true,
     {| fdcCache :=
          <[generateRequestId p :=
              mkFdcResult (generateRequestId p) (Some ("0x" ++ fst (hex_digits 64 r)))
                          "completed" true]> (fdcCache st);
        isInitialized := isInitialized st;
        isConnecting := isConnecting st;
        connectionError := connectionError st |},
     snd (hex_digits 64 r)).
Proof. unfold useFallbackData. now destruct (hex_digits 64 r). Qed.

(** X22. Two calls of [purchaseData] for the same parameters that overlap
    leave with different results. When the first call misses the cache and
    waits on the wallet, the second finds a connection under way, falls
    back and caches a result marked "completed"; when the first then
    connects and purchases, its unconditional [fdcCache.set] replaces that
    entry with its own "pending" result, while the second caller keeps the
    fallback it was given. *)
Theorem overlapping_calls_overwrite (p : list Z) (st : service) (r : rng) (w : world)
        (txHash : option string) :
  fdcCache st !! generateRequestId p = None ->
  isInitialized st = false ->
  isConnecting st = false ->
  connect w = None ->
  purchase w = Some txHash ->
  let fallback :=
    mkFdcResult (generateRequestId p) (Some ("0x" ++ fst (hex_digits 64 r)))
                "completed" true in
  let purchased := mkFdcResult (generateRequestId p) txHash "pending" false in
  fdcCache (shared (run_system (firstn 3 (overlapping p w)) (mkSystem st r [])))
  !! generateRequestId p = Some fallback
  /\ calls (run_system (firstn 3 (overlapping p w)) (mkSystem st r []))
     = [(PurchaseData p, Connecting); (PurchaseData p, Returned fallback)]
  /\ fdcCache (shared (run_system (overlapping p w) (mkSystem st r [])))
     !! generateRequestId p = Some purchased
  /\ calls (run_system (overlapping p w) (mkSystem st r []))
     = [(PurchaseData p, Returned purchased); (PurchaseData p, Returned fallback)].
Proof.
  intros Hmiss Hinit Hconn Hwallet Hpurchase fallback purchased.
  set (waiting := {| fdcCache := fdcCache st; isInitialized := false;
                     isConnecting := true; connectionError := JNull |}).
  (* the first call starts, misses the cache and waits on the wallet *)
  assert (step (mkSystem st r []) (Call (PurchaseData p))
          = mkSystem waiting r [(PurchaseData p, Connecting)]) as H1.
  { unfold step, start, begin_initialize. cbn [shared stream calls].
    now rewrite Hmiss, Hinit, Hconn. }
  (* the second starts, misses too, and finds a connection under way *)
  assert (step (mkSystem waiting r [(PurchaseData p, Connecting)])
               (Call (PurchaseData p))
          = mkSystem waiting r
              [(PurchaseData p, Connecting); (PurchaseData p, Initialized false)])
    as H2.
  { unfold step, start, begin_initialize. cbn [shared stream calls waiting fdcCache].
    now rewrite Hmiss. }
  (* the second falls back and caches its result *)
  set (fell_back := {| fdcCache := <[generateRequestId p := fallback]> (fdcCache st);
                       isInitialized := false; isConnecting := true;
                       connectionError := JNull |}).
  assert (step (mkSystem waiting r
                  [(PurchaseData p, Connecting); (PurchaseData p, Initialized false)])
               (Resume 1 w)
          = mkSystem fell_back (snd (hex_digits 64 r))
              [(PurchaseData p, Connecting); (PurchaseData p, Returned fallback)])
    as H3.
  { unfold step. cbn [shared stream calls].
    change ([(PurchaseData p, Connecting); (PurchaseData p, Initialized false)] !! 1%nat)
      with (Some (PurchaseData p, Initialized false)).
    cbn [resume]. now rewrite useFallbackData_eq. }
  (* the first connects *)
  set (connected := {| fdcCache := <[generateRequestId p := fallback]> (fdcCache st);
                       isInitialized := true; isConnecting := false;
                       connectionError := JNull |}).
  assert (step (mkSystem fell_back (snd (hex_digits 64 r))
                  [(PurchaseData p, Connecting); (PurchaseData p, Returned fallback)])
               (Resume 0 w)
          = mkSystem connected (snd (hex_digits 64 r))
              [(PurchaseData p, Initialized true); (PurchaseData p, Returned fallback)])
    as H4.
  { unfold step. cbn [shared stream calls].
    change ([(PurchaseData p, Connecting); (PurchaseData p, Returned fallback)] !! 0%nat)
      with (Some (PurchaseData p, Connecting)).
    cbn [resume]. unfold end_initialize. now rewrite Hwallet. }
  (* ... goes on to the purchase ... *)
  assert (step (mkSystem connected (snd (hex_digits 64 r))
                  [(PurchaseData p, Initialized true);
                   (PurchaseData p, Returned fallback)])
               (Resume 0 w)
          = mkSystem connected (snd (hex_digits 64 r))
              [(PurchaseData p, Purchasing); (PurchaseData p, Returned fallback)])
    as H5 by reflexivity.
  (* ... and files its own result over the fallback *)
  set (overwritten :=
         {| fdcCache :=
              <[generateRequestId p := purchased]>
                (<[generateRequestId p := fallback]> (fdcCache st));
            isInitialized := true; isConnecting := false;
            connectionError := JNull |}).
  assert (step (mkSystem connected (snd (hex_digits 64 r))
                  [(PurchaseData p, Purchasing); (PurchaseData p, Returned fallback)])
               (Resume 0 w)
          = mkSystem overwritten (snd (hex_digits 64 r))
              [(PurchaseData p, Returned purchased);
               (PurchaseData p, Returned fallback)])
    as H6.
  { unfold step. cbn [shared stream calls].
    change ([(PurchaseData p, Purchasing); (PurchaseData p, Returned fallback)] !! 0%nat)
      with (Some (PurchaseData p, Purchasing)).
    cbn [resume]. now rewrite Hpurchase. }
  unfold overlapping, run_system. cbn [firstn fold_left].
  rewrite H1, H2, H3, H4, H5, H6.
  cbn [shared calls fdcCache fell_back overwritten].
  rewrite !lookup_insert_eq. now repeat split.
Qed.

Lemma overlapping_calls_overwrite_witness :
  calls (run_system (overlapping quoted_Aa good_wallet)
           (mkSystem initial_service draws_high_then_low []))
  = [(PurchaseData quoted_Aa,
      Returned (mkFdcResult (generateRequestId quoted_Aa) (Some "0xfeed") "pending" false));
     (PurchaseData quoted_Aa,
      Returned (mkFdcResult (generateRequestId quoted_Aa)
                  (Some ("0x" ++ fst (hex_digits 64 draws_high_then_low)))
                  "completed" true))].
Proof.
  destruct (overlapping_calls_overwrite quoted_Aa initial_service draws_high_then_low
              good_wallet (Some "0xfeed"))
    as (_ & _ & _ & Hcalls);
    [reflexivity | reflexivity | reflexivity | reflexivity | reflexivity | exact Hcalls].
Defined.

End FlareVrfFacts.
